(** * RUMBoost post-processing utilities: a shallow embedding

  This development embeds the three functions of
  [rumboost/post_process.py] and proves the properties that the
  specification states about them:

  - [Split.split_fe_model]      (lines 10-52 of the module),
  - [Bootstrap.bootstrap]       (lines 55-104),
  - [Extract.assist_model_spec] (lines 106-129).

  Python statements that can raise are modelled in a state-and-exception
  monad; the collaborators that live outside the module (the class
  constructor, the random generator, the training routine, the weight
  helper) are section variables with their contracts as hypotheses. *)

From stdpp Require Import gmap strings list fin_maps sorting pretty.

(** ** Exceptions and the execution monad *)

(** The exceptions that the modelled statements can raise. [ExternalError]
  stands for whatever an external collaborator raises. *)
Inductive exn : Type :=
| ValueError (msg : string)
| AttributeError (name : string)
| TypeError
| KeyError
| IndexError
| ExternalError (what : string).

Global Instance exn_eq_dec : EqDecision exn.
Proof. solve_decision. Defined.

(** A computation over a state [S] that returns an [A] or raises. The state
  reached when the exception is raised is kept: Python does not roll
  anything back. *)
Definition M (S A : Type) : Type := S → (exn + A) * S.

Global Instance M_ret {S} : MRet (M S) := λ A a s, (inr a, s).

Global Instance M_bind {S} : MBind (M S) := λ A B f m s,
match m s with
| (inr a, s') => f a s'
| (inl e, s') => (inl e, s')
end.

Definition raise {S A} (e : exn) : M S A := λ s, (inl e, s).

(** ** Python sequences *)

Section sequences.
Context {A : Type}.

(** [enumerate(xs)], with the counter starting at [k]. *)
Fixpoint enumerate_from (k : nat) (xs : list A) : list (nat * A) :=
  match xs with
  | [] => []
  | x :: xs' => (k, x) :: enumerate_from (S k) xs'
  end.

Definition enumerate (xs : list A) : list (nat * A) := enumerate_from 0 xs.

(** [[b for i, b in enumerate(xs) if i % 2 == r]] *)
Definition comprehension_mod2 (r : nat) (xs : list A) : list A :=
  (filter (λ p : nat * A, p.1 mod 2 = r) (enumerate xs)).*2.

(** [xs[start::step]] for a non-negative [start] and a positive [step]:
    the items at the indices [start], [start + step], ... below
    [len(xs)]. *)
Definition py_slice (start step : nat) (xs : list A) : list A :=
  (filter (λ p : nat * A, start ≤ p.1 ∧ (p.1 - start) mod step = 0)
          (enumerate xs)).*2.

(** The items at the even positions, and those at the odd ones. *)
Fixpoint evens (xs : list A) : list A :=
  match xs with
  | [] => []
  | x :: xs' => x :: odds xs'
  end
with odds (xs : list A) : list A :=
  match xs with
  | [] => []
  | _ :: xs' => evens xs'
  end.

(** [a[0], s[0], a[1], s[1], ...] *)
Definition interleave (a s : list A) : list A :=
  mjoin (zip_with (λ x y, [x; y]) a s).
End sequences.

(** ** The object store *)

(** Python objects live in a store and are handled through references, so
    that two attributes can hold the same object. *)
Module Split.

Definition loc := positive.

Inductive value : Type :=
  | VNone
  | VBool (b : bool)
  | VInt (n : Z)
  | VStr (s : string)
  | VRef (l : loc).

Inductive object : Type :=
  | OInstance (attrs : gmap string value)   (* an instance and its attributes *)
  | OList (items : list value)
  | OTuple (items : list value)
  | ODict (entries : list (value * value)).

Abbreviation heap := (gmap loc object).

(** [o.name], read in the store [h] without the monad. *)
Definition attr (h : heap) (o : value) (name : string) : option value :=
  match o with
  | VRef l =>
      match h !! l with
      | Some (OInstance attrs) => attrs !! name
      | _ => None
      end
  | _ => None
  end.

(** [isinstance(v, list)] *)
Definition is_list (h : heap) (v : value) : bool :=
  match v with
  | VRef l => match h !! l with Some (OList _) => true | _ => false end
  | _ => false
  end.

(** The items of the list object [v]. *)
Definition list_items (h : heap) (v : value) : option (list value) :=
  match v with
  | VRef l => match h !! l with Some (OList xs) => Some xs | _ => None end
  | _ => None
  end.

(** What iterating over [v] yields, [None] when [v] is not iterable. *)
Definition iter_items (h : heap) (v : value) : option (list value) :=
  match v with
  | VRef l =>
      match h !! l with
      | Some (OList xs) | Some (OTuple xs) => Some xs
      | Some (ODict es) => Some (es.*1)
      | _ => None
      end
  | VStr s => Some ((λ c, VStr (String c "")) <$> String.list_ascii_of_string s)
  | _ => None
  end.

(** [o.name] as an expression. *)
Definition getattr (o : value) (name : string) : M heap value := λ h,
  match attr h o name with
  | Some v => (inr v, h)
  | None => (inl (AttributeError name), h)
  end.

(** [o.name = v] *)
Definition setattr (o : value) (name : string) (v : value) : M heap unit := λ h,
  match o with
  | VRef l =>
      match h !! l with
      | Some (OInstance attrs) =>
          (inr (), <[l := OInstance (<[name := v]> attrs)]> h)
      | _ => (inl (AttributeError name), h)
      end
  | _ => (inl (AttributeError name), h)
  end.

(** A new object, at an address that the store does not use yet. *)
Definition alloc (o : object) : M heap value := λ h,
  let l := fresh (dom h) in (inr (VRef l), <[l := o]> h).

(** [isinstance(v, list)] as an expression. *)
Definition isinstance_list (v : value) : M heap bool := λ h,
  (inr (is_list h v), h).

(** [iter(v)], run to the end. *)
Definition iterate (v : value) : M heap (list value) := λ h,
  match iter_items h v with
  | Some xs => (inr xs, h)
  | None => (inl TypeError, h)
  end.

(** [v[start::step]]: a new list from a list, a new tuple from a tuple, a
    string from a string. *)
Definition getslice (v : value) (start step : nat) : M heap value := λ h,
  match v with
  | VRef l =>
      match h !! l with
      | Some (OList xs) => alloc (OList (py_slice start step xs)) h
      | Some (OTuple xs) => alloc (OTuple (py_slice start step xs)) h
      | _ => (inl TypeError, h)
      end
  | VStr s =>
      (inr (VStr (String.string_of_list_ascii
                    (py_slice start step (String.list_ascii_of_string s)))), h)
  | _ => (inl TypeError, h)
  end.

(** The text of the error raised for a descriptor that is not a list. *)
Definition rum_structure_msg : string :=
  "Please add a rum_structure to your model by setting model.rum_structure. A rum_structure must be a list of 2*n_alt dictionaries in this function".

Section split.

(** [RUMBoost()]: the constructor of the model class, defined outside this
    module. *)
Variable RUMBoost : M heap value.

(** [split_fe_model(model)], statement by statement. *)
Definition split_fe_model (model : value) : M heap (value * value) :=
  rum_structure ← getattr model "rum_structure";
  is_a_list ← isinstance_list rum_structure;
  if negb is_a_list then raise (ValueError rum_structure_msg) else
  attributes_model ← RUMBoost;
  socio_economic_model ← RUMBoost;
  (* attributes_model *)
  boosters ← getattr model "boosters";
  items ← iterate boosters;
  v ← alloc (OList (comprehension_mod2 0 items));
  setattr attributes_model "boosters" v;;
  rum_structure ← getattr model "rum_structure";
  v ← getslice rum_structure 0 2;
  setattr attributes_model "rum_structure" v;;
  v ← getattr model "num_classes";
  setattr attributes_model "num_classes" v;;
  v ← getattr model "device";
  setattr attributes_model "device" v;;
  v ← getattr model "nests";
  setattr attributes_model "nests" v;;
  v ← getattr model "alphas";
  setattr attributes_model "alphas" v;;
  (* socio_economic_model *)
  boosters ← getattr model "boosters";
  items ← iterate boosters;
  v ← alloc (OList (comprehension_mod2 1 items));
  setattr socio_economic_model "boosters" v;;
  rum_structure ← getattr model "rum_structure";
  v ← getslice rum_structure 1 2;
  setattr socio_economic_model "rum_structure" v;;
  v ← getattr model "num_classes";
  setattr socio_economic_model "num_classes" v;;
  v ← getattr model "device";
  setattr socio_economic_model "device" v;;
  v ← getattr model "nests";
  setattr socio_economic_model "nests" v;;
  v ← getattr model "alphas";
  setattr socio_economic_model "alphas" v;;
  mret (attributes_model, socio_economic_model).

(** The twelve statements that fill one of the two results, followed by the
    rest of the function. [split_fe_model] is these statements twice, after
    the test and the two constructor calls (lemma [split_fe_model_fill]). *)
Definition fill {B} (r : nat) (target model : value) (rest : M heap B)
  : M heap B :=
  boosters ← getattr model "boosters";
  items ← iterate boosters;
  v ← alloc (OList (comprehension_mod2 r items));
  setattr target "boosters" v;;
  rum_structure ← getattr model "rum_structure";
  v ← getslice rum_structure r 2;
  setattr target "rum_structure" v;;
  v ← getattr model "num_classes";
  setattr target "num_classes" v;;
  v ← getattr model "device";
  setattr target "device" v;;
  v ← getattr model "nests";
  setattr target "nests" v;;
  v ← getattr model "alphas";
  setattr target "alphas" v;;
  rest.

End split.

(** *** What the properties are stated with *)

(** The contract of the constructor: it returns a new instance, at an
    address that was not in use, and leaves every other object as it was. *)
Definition constructor_spec (RUMBoost : M heap value) : Prop :=
  ∀ h : heap, ∃ l attrs h',
    RUMBoost h = (inr (VRef l), h') ∧ h !! l = None ∧
    h' !! l = Some (OInstance attrs) ∧ h ⊆ h'.

(** The attributes that are copied as they are, and the six attributes that
    the function sets. *)
Definition copied : list string := ["num_classes"; "device"; "nests"; "alphas"].

Definition fields : list string := "boosters" :: "rum_structure" :: copied.

(** The objects other than [lt] are kept from [h] to [h']. *)
Definition frame (lt : loc) (h h' : heap) : Prop :=
  ∀ l o, l ≠ lt → h !! l = Some o → h' !! l = Some o.

(** The attributes [T] of a result whose attributes were [T0] when the
    constructor returned it, filled from a source with the attributes [Am]. *)
Definition filled (T0 Am : gmap string value) (lb lr' : loc)
    (T : gmap string value) : Prop :=
  ∃ vn vd vns val,
    Am !! "num_classes" = Some vn ∧ Am !! "device" = Some vd ∧
    Am !! "nests" = Some vns ∧ Am !! "alphas" = Some val ∧
    T = <["alphas" := val]> (<["nests" := vns]> (<["device" := vd]>
        (<["num_classes" := vn]> (<["rum_structure" := VRef lr']>
        (<["boosters" := VRef lb]> T0))))).

(** The result at the address [l], in the final store [h']. *)
Definition result_of (h h' : heap) (r : nat) (Am T0 : gmap string value)
    (l : loc) : Prop :=
  ∃ T lb lr,
    h !! l = None ∧ h' !! l = Some (OInstance T) ∧
    T !! "boosters" = Some (VRef lb) ∧ h !! lb = None ∧
    T !! "rum_structure" = Some (VRef lr) ∧ h !! lr = None ∧
    (∀ k, k ∈ copied → T !! k = Am !! k ∧ is_Some (Am !! k)) ∧
    (∀ k, k ∉ fields → T !! k = T0 !! k) ∧
    (∀ rs, (Am !! "rum_structure" ≫= list_items h) = Some rs →
       h' !! lr = Some (OList (py_slice r 2 rs))) ∧
    (∀ bs, (Am !! "boosters" ≫= iter_items h) = Some bs →
       h' !! lb = Some (OList (comprehension_mod2 r bs))).

(** What a call that returns [(a, s)] has done. *)
Definition split_post (RUMBoost : M heap value) (h : heap)
    (model a s : value) (h' : heap) : Prop :=
  ∃ m Am la ls A0 S0 h1 h2,
    model = VRef m ∧ h !! m = Some (OInstance Am) ∧
    is_list h <$> Am !! "rum_structure" = Some true ∧
    a = VRef la ∧ s = VRef ls ∧ la ≠ ls ∧
    RUMBoost h = (inr a, h1) ∧ h1 !! la = Some (OInstance A0) ∧
    RUMBoost h1 = (inr s, h2) ∧ h2 !! ls = Some (OInstance S0) ∧
    result_of h h' 0 Am A0 la ∧ result_of h h' 1 Am S0 ls.

(** Every outcome of a call, with the reason of each exception. *)
Definition split_outcome (RUMBoost : M heap value) (h : heap) (model : value)
    (r : exn + value * value) (h' : heap) : Prop :=
  h ⊆ h' ∧
  match r with
  | inl (ValueError msg) =>
      msg = rum_structure_msg ∧
      ∃ v, attr h model "rum_structure" = Some v ∧ is_list h v = false
  | inl (AttributeError k) => attr h model k = None ∧ k ∈ fields
  | inl TypeError =>
      ∃ vb, attr h model "boosters" = Some vb ∧ iter_items h vb = None
  | inl _ => False
  | inr (a, s) => split_post RUMBoost h model a s h'
  end.

(** *** A small store to run the function on *)

(** A constructor that sets two attributes. *)
Definition toy_defaults : gmap string value :=
  {[ "boosters" := VNone; "valid_sets" := VNone ]}.

Definition toy_RUMBoost : M heap value := alloc (OInstance toy_defaults).

(** A model with four boosters, and one attribute that is not among the
    six. *)
Definition toy_attrs : gmap string value :=
  {[ "boosters" := VRef 2%positive; "rum_structure" := VRef 3%positive;
     "num_classes" := VInt 2; "device" := VStr "cpu"; "nests" := VNone;
     "alphas" := VRef 12%positive; "best_iteration" := VInt 7 ]}.

Definition toy_boosters : list value := VRef <$> [4; 5; 6; 7]%positive.

Definition toy_structure : list value := VRef <$> [8; 9; 10; 11]%positive.

Definition toy_heap : heap :=
  list_to_map
    ([ (1%positive, OInstance toy_attrs); (2%positive, OList toy_boosters);
       (3%positive, OList toy_structure);
       (12%positive, OList [VInt 1; VInt 1]) ]
     ++ ((λ l, (l, OInstance ∅)) <$> [4; 5; 6; 7]%positive)
     ++ ((λ l, (l, ODict [])) <$> [8; 9; 10; 11]%positive)).

(** The same model with the descriptor in a tuple. *)
Definition toy_heap_tuple : heap :=
  <[3%positive := OTuple toy_structure]> toy_heap.


Definition toy_heap_no_boosters : heap :=
  <[1%positive := OInstance (<["boosters" := VNone]> toy_attrs)]> toy_heap.

End Split.

(** ** The bootstrap runner *)

Module Bootstrap.

(** *** numpy on one-dimensional integer arrays *)

(** [aux[mask]] for [mask[i] = (aux[i] != aux[i-1])], where [prev] is the
    item before the first one of [aux]. *)
Fixpoint mask_changes (prev : Z) (aux : list Z) : list Z :=
  match aux with
  | [] => []
  | x :: aux' =>
      if decide (x = prev) then mask_changes x aux'
      else x :: mask_changes x aux'
  end.

(** [np.unique(ar)]: sort, then keep the first item of every run. *)
Definition np_unique (ar : list Z) : list Z :=
  match merge_sort Z.le ar with
  | [] => []
  | x :: aux' => x :: mask_changes x aux'
  end.

(** [np.setdiff1d(ar1, ar2)]: the unique values of [ar1] that are not in
    [ar2], sorted. *)
Definition np_setdiff1d (ar1 ar2 : list Z) : list Z :=
  let ar1 := np_unique ar1 in
  let ar2 := np_unique ar2 in
  filter (λ x, x ∉ ar2) ar1.

(** [a[idx]] with an array of positions: [IndexError] when one of them is
    out of range. *)
Fixpoint take_positions {S} (a : list Z) (idx : list nat) : M S (list Z) :=
  match idx with
  | [] => mret []
  | i :: idx' =>
      match a !! i with
      | Some x => xs ← take_positions a idx'; mret (x :: xs)
      | None => raise IndexError
      end
  end.

Section bootstrap.

(** The state of numpy's global generator, the features of a row, the model
    specification and the trained model: all opaque here. *)
Variables (G Feat Spec Model : Type).

(** *** The data frame *)

Record row : Type := Row { row_id : Z; row_features : Feat; row_choice : Z }.

(** [dataset.index] *)
Definition index (df : list row) : list Z := row_id <$> df.

(** [df.loc[ids]]: for each label in turn the rows that carry it;
    [KeyError] when a label is not in the index. *)
Definition loc {S} (df : list row) (ids : list Z) : M S (list row) :=
  if decide (Forall (λ i, i ∈ index df) ids)
  then mret (ids ≫= λ i, filter (λ r, row_id r = i) df)
  else raise KeyError.

(** [df.drop("choice", axis=1)] and [df.choice], each with the index. *)
Definition drop_choice (df : list row) : list (Z * Feat) :=
  (λ r, (row_id r, row_features r)) <$> df.

Definition choice (df : list row) : list (Z * Z) :=
  (λ r, (row_id r, row_choice r)) <$> df.

(** [lgb.Dataset(data, label=..., free_raw_data=...)] *)
Record lgb_Dataset : Type :=
  Dataset { data : list (Z * Feat); label : list (Z * Z); free_raw_data : bool }.

(** *** The collaborators *)

(** The generator state that [np.random.seed(seed)] installs, or the
    exception it raises for a seed that it refuses. *)
Variable seed_state : Z → exn + G.

(** One draw of [randint(0, high)]. *)
Variable randint : nat → G → nat * G.

(** [rum_train(train_set, specification, valid_sets=...)]: it may raise, and
    it may consume random numbers. *)
Variable rum_train : lgb_Dataset → Spec → list lgb_Dataset → M G Model.

(** *** The state of a run *)

(** The global generator, and the identifiers [(ids, ids2)] computed in the
    iterations so far. The second component is not a variable of the
    program: it records the values that the local variables take. *)
Record world : Type := World { rng : G; resamples : list (list Z * list Z) }.

Definition with_rng {A} (m : M G A) : M world A := λ w,
  let '(r, g) := m (rng w) in (r, World g (resamples w)).

Definition record_resample (ids ids2 : list Z) : M world () := λ w,
  (inr (), World (rng w) (resamples w ++ [(ids, ids2)])).

(** [np.random.seed(seed)] *)
Definition np_random_seed (seed : Z) : M G () := λ g,
  match seed_state seed with
  | inr g' => (inr (), g')
  | inl e => (inl e, g)
  end.

(** [randint(0, high, size=size)]: the draws are made one after the other. *)
Fixpoint randints (high size : nat) : M G (list nat) :=
  match size with
  | 0 => mret []
  | S size' =>
      i ← (λ g, let '(i, g') := randint high g in (inr i, g'));
      idx ← randints high size';
      mret (i :: idx)
  end.

(** [np.random.choice(a, size=size, replace=True)] *)
Definition np_random_choice (a : list Z) (size : nat) : M G (list Z) :=
  let pop_size := length a in
  if decide (pop_size = 0 ∧ size ≠ 0)
  then raise (ValueError "'a' cannot be empty unless no samples are taken")
  else idx ← randints pop_size size; take_positions a idx.

(** *** The function *)

(** Lines 86 to 98: the resample, its complement and the two data sets. *)
Definition resample (dataset : list row) (N : nat)
  : M world (lgb_Dataset * lgb_Dataset) :=
  ids ← with_rng (np_random_choice (index dataset) N);
  let ids2 := np_setdiff1d (index dataset) ids in
  record_resample ids ids2;;
  df_train ← loc dataset ids;
  df_test ← loc dataset ids2;
  let dataset_train := Dataset (drop_choice df_train) (choice df_train) false in
  let valid_set := Dataset (drop_choice df_test) (choice df_test) false in
  mret (dataset_train, valid_set).

(** The body of the loop: lines 86 to 102. *)
Definition bootstrap_body (dataset : list row) (model_specification : Spec)
    (N : nat) (models : list Model) : M world (list Model) :=
  '(dataset_train, valid_set) ← resample dataset N;
  m ← with_rng (rum_train dataset_train model_specification [valid_set]);
  mret (models ++ [m]).

(** [for _ in range(n): body] *)
Fixpoint for_range {S A} (n : nat) (body : A → M S A) (acc : A) : M S A :=
  match n with
  | 0 => mret acc
  | S n' => acc' ← body acc; for_range n' body acc'
  end.

(** [bootstrap(dataset, model_specification, num_it, seed)] *)
Definition bootstrap (dataset : list row) (model_specification : Spec)
    (num_it seed : Z) : M world (list Model) :=
  with_rng (np_random_seed seed);;
  let N := length dataset in
  let models := [] in
  for_range (Z.to_nat num_it) (bootstrap_body dataset model_specification N) models.

End bootstrap.

Arguments Row {Feat}.
Arguments row_id {Feat}.
Arguments row_features {Feat}.
Arguments row_choice {Feat}.
Arguments index {Feat}.
Arguments loc {Feat S}.
Arguments drop_choice {Feat}.
Arguments choice {Feat}.
Arguments Dataset {Feat}.
Arguments data {Feat}.
Arguments label {Feat}.
Arguments free_raw_data {Feat}.
Arguments World {G}.
Arguments rng {G}.
Arguments resamples {G}.
Arguments with_rng {G A}.
Arguments record_resample {G}.
Arguments np_random_seed {G}.
Arguments randints {G}.
Arguments np_random_choice {G}.
Arguments resample {G Feat}.
Arguments bootstrap_body {G Feat Spec Model}.
Arguments bootstrap {G Feat Spec Model}.

(** *** What the properties are stated with *)

(** The contract of the generator: a draw of [randint(0, high)] is below
    [high]. *)
Definition randint_spec {G} (randint : nat → G → nat * G) : Prop :=
  ∀ high g, 0 < high → (randint high g).1 < high.

(** The training routine returns a model whatever it is given. *)
Definition always_trains {G Feat Spec Model}
    (rum_train : lgb_Dataset Feat → Spec → list (lgb_Dataset Feat) → M G Model)
  : Prop :=
  ∀ train_set spec valid_sets g,
    ∃ m g', rum_train train_set spec valid_sets g = (inr m, g').

(** What an iteration's identifiers [(ids, ids2)] must satisfy. *)
Definition resample_ok {Feat} (dataset : list (row Feat))
    (sample : list Z * list Z) : Prop :=
  let '(ids, ids2) := sample in
  length ids = length dataset
  ∧ (∀ x, x ∈ ids2 ↔ x ∈ index dataset ∧ x ∉ ids)
  ∧ NoDup ids2
  ∧ StronglySorted Z.lt ids2.

(** *** A small instance to run the function on *)

(** A linear congruential generator in the place of numpy's. *)
Definition toy_next (g : Z) : Z := ((1103515245 * g + 12345) `mod` 2 ^ 31)%Z.

Definition toy_randint (high : nat) (g : Z) : nat * Z :=
  let g' := toy_next g in (Z.to_nat (g' `div` 65536) mod high, g').

Definition toy_seed_state (seed : Z) : exn + Z :=
  if decide (0 ≤ seed < 2 ^ 32)%Z then inr seed
  else inl (ValueError "Seed must be between 0 and 2**32 - 1").

(** A training routine that reports the sizes of its data sets, and one that
    refuses an empty validation set. *)
Definition toy_train_total (train_set : lgb_Dataset ()) (spec : ())
    (valid_sets : list (lgb_Dataset ())) : M Z (nat * nat) :=
  mret (length (data train_set), length (valid_sets ≫= data)).

Definition toy_train (train_set : lgb_Dataset ()) (spec : ())
    (valid_sets : list (lgb_Dataset ())) : M Z (nat * nat) :=
  if decide (valid_sets ≫= data = [])
  then raise (ExternalError "no validation data")
  else toy_train_total train_set spec valid_sets.

Definition toy_dataset : list (row ()) :=
  [Row 10 () 0; Row 20 () 1; Row 30 () 1]%Z.

(** The rows that [df.loc[ids]] selects when it returns. *)
Definition loc_rows {Feat} (df : list (row Feat)) (ids : list Z)
  : list (row Feat) :=
  ids ≫= λ i, filter (λ r, row_id r = i) df.

End Bootstrap.

(** ** The specification extractor *)

Module Extract.

(** [Beta(name, value, lowerbound, upperbound, status)] of biogeme: the
    arguments are stored as given. *)
Record Beta : Type := mkBeta {
  beta_name : string;
  beta_value : Z;
  beta_lowerbound : option Z;
  beta_upperbound : option Z;
  beta_status : Z
}.

(** What a call of the function evaluates to. *)
Inductive result : Type :=
  | RNone
  | RDict (d : gmap string Beta).

(** [range(n)] *)
Definition range (n : Z) : list Z := Z.of_nat <$> seq 0 (Z.to_nat n).

(** [xs[i]] for a list: a negative index counts from the end. *)
Definition getitem {S A} (xs : list A) (i : Z) : M S A :=
  let len := Z.of_nat (length xs) in
  let j := if decide (i < 0)%Z then (len + i)%Z else i in
  if decide (0 ≤ j < len)%Z then
    match xs !! Z.to_nat j with
    | Some x => mret x
    | None => raise IndexError
    end
  else raise IndexError.

(** [for x in xs: body] *)
Fixpoint for_each {S A} (xs : list A) (body : A → M S ()) : M S () :=
  match xs with
  | [] => mret ()
  | x :: xs' => body x;; for_each xs' body
  end.

(** [pass] *)
Definition pass {S} : M S () := mret ().

(** The fields of a trained model that the function reads. *)
Record model : Type := Model {
  num_classes : Z;
  boost_from_parameter_space : list bool
}.

(** [{f"asc_{i}": Beta(f"asc_{i}", 0, None, None, 0) for i in range(n)}] *)
Definition asc_name (i : Z) : string := "asc_" +:+ pretty i.

Definition asc_comprehension (n : Z) : gmap string Beta :=
  foldl (λ d i, <[asc_name i := mkBeta (asc_name i) 0 None None 0]> d)
        ∅ (range n).

Section extract.

(** The keys of the mapping that the weight helper returns, and what it
    reports for a feature. *)
Variables (Key TreeInfo : Type).

(** A dictionary is the list of its items, in iteration order. *)
Abbreviation weights_dict := (list (Key * list (string * TreeInfo))).

(** [weights_to_plot_v2(model)], from the plotting module. *)
Variable weights_to_plot_v2 : model → exn + weights_dict.

(** [int(i)] on a key of that mapping. *)
Variable int : Key → exn + Z.

(** The local variables of a call. *)
Record locals : Type := Locals {
  ascs : option (gmap string Beta);
  weights : option weights_dict
}.

Definition set_ascs (d : gmap string Beta) : M locals () := λ s,
  (inr (), Locals (Some d) (weights s)).

Definition set_weights (w : weights_dict) : M locals () := λ s,
  (inr (), Locals (ascs s) (Some w)).

Definition call {S A} (r : exn + A) : M S A := λ s, (r, s).

(** Lines 124 to 129. *)
Definition inspect_weights (model : model) (w : weights_dict) : M locals () :=
  for_each w (λ '(i, weight),
    for_each weight (λ '(name, tree_info),
      k ← call (int i);
      b ← getitem (boost_from_parameter_space model) k;
      if b : bool then pass else pass)).

(** [assist_model_spec(model)]: the end of the body is reached without a
    [return]. *)
Definition assist_model_spec (model : model) : M locals result :=
  set_ascs (asc_comprehension (num_classes model - 1));;
  w ← call (weights_to_plot_v2 model);
  set_weights w;;
  inspect_weights model w;;
  mret RNone.

End extract.

Arguments Locals {Key TreeInfo}.
Arguments ascs {Key TreeInfo}.
Arguments weights {Key TreeInfo}.
Arguments set_ascs {Key TreeInfo}.
Arguments set_weights {Key TreeInfo}.
Arguments inspect_weights {Key TreeInfo}.
Arguments assist_model_spec {Key TreeInfo}.

(** *** What the properties are stated with *)

(** The placeholder that line 121 stores under the key [asc_i]. *)
Definition asc_beta (i : Z) : Beta := mkBeta (asc_name i) 0 None None 0.

(** The indices that [xs[i]] accepts. *)
Definition valid_index {A} (xs : list A) (i : Z) : Prop :=
  (- Z.of_nat (length xs) ≤ i < Z.of_nat (length xs))%Z.

(** The mapping [w] that the weight helper returned refers to boosters of
    the model: every key whose inner mapping has an item converts to an
    index of [boost_from_parameter_space]. *)
Definition weights_ok {Key TreeInfo} (int : Key → exn + Z) (m : model)
    (w : list (Key * list (string * TreeInfo))) : Prop :=
  Forall (λ item, item.2 = [] ∨
            ∃ k, int item.1 = inr k
                 ∧ valid_index (boost_from_parameter_space m) k) w.

(** *** A small instance to run the function on *)

Definition toy_digit (c : Ascii.ascii) : option Z :=
  let n := Ascii.nat_of_ascii c in
  if decide (48 ≤ n ≤ 57) then Some (Z.of_nat (n - 48)) else None.

Fixpoint toy_int_digits (acc : Z) (s : string) : exn + Z :=
  match s with
  | EmptyString => inr acc
  | String c s' =>
      match toy_digit c with
      | Some d => toy_int_digits (10 * acc + d) s'
      | None => inl (ValueError "invalid literal for int() with base 10")
      end
  end.

(** [int(s)] on a string of decimal digits. *)
Definition toy_int (s : string) : exn + Z :=
  match s with
  | EmptyString => inl (ValueError "invalid literal for int() with base 10")
  | _ => toy_int_digits 0 s
  end.

Definition toy_model : model := Model 3 [true; false; false].

Definition toy_weights (m : model) : exn + list (string * list (string * ())) :=
  inr [("0", [("travel_time", ()); ("cost", ())]); ("2", [("cost", ())])].


Definition toy_model_single : model := Model 1 [true].

End Extract.

(** * Properties *)

(** ** The execution monad *)

Lemma bind_ok {S A B} (m : M S A) (f : A → M S B) s a s' :
  m s = (inr a, s') → (m ≫= f) s = f a s'.
Proof. intros H. unfold mbind, M_bind. by rewrite H. Qed.

Lemma bind_err {S A B} (m : M S A) (f : A → M S B) s e s' :
  m s = (inl e, s') → (m ≫= f) s = (inl e, s').
Proof. intros H. unfold mbind, M_bind. by rewrite H. Qed.

Lemma bind_inv_ok {S A B} (m : M S A) (f : A → M S B) s b s'' :
  (m ≫= f) s = (inr b, s'') →
  ∃ a s', m s = (inr a, s') ∧ f a s' = (inr b, s'').
Proof.
  unfold mbind, M_bind. destruct (m s) as [[e|a] s']; [done|]. eauto.
Qed.

(** ** Even and odd positions *)

Section sequences_facts.
Context {A : Type}.
Implicit Types xs : list A.

Lemma filter_enumerate_parity xs : ∀ k,
  (filter (λ p : nat * A, p.1 mod 2 = k mod 2) (enumerate_from k xs)).*2
    = evens xs
  ∧ (filter (λ p : nat * A, p.1 mod 2 = S k mod 2) (enumerate_from k xs)).*2
    = odds xs.
Proof.
  induction xs as [|x xs IH]; intros k; [done|].
  destruct (IH (S k)) as [IHe IHo]. cbn [enumerate_from evens odds].
  assert (S (S k) mod 2 = k mod 2) as Hk.
  { replace (S (S k)) with (k + 1 * 2) by lia. apply Nat.Div0.mod_add. }
  rewrite Hk in IHo. split.
  - rewrite filter_cons_True by done. rewrite fmap_cons. by rewrite IHo.
  - rewrite filter_cons_False; [exact IHe|].
    cbn [fst]. replace (S k) with (k + 1) by lia.
    pose proof (Nat.mod_upper_bound k 2).
    rewrite (Nat.Div0.add_mod k 1 2).
    destruct (k mod 2) as [|[|?]]; cbn; lia.
Qed.

Lemma comprehension_mod2_0 xs : comprehension_mod2 0 xs = evens xs.
Proof. exact (proj1 (filter_enumerate_parity xs 0)). Qed.

Lemma comprehension_mod2_1 xs : comprehension_mod2 1 xs = odds xs.
Proof. exact (proj2 (filter_enumerate_parity xs 0)). Qed.

Lemma py_slice_0_2 xs : py_slice 0 2 xs = evens xs.
Proof.
  rewrite <- comprehension_mod2_0. unfold py_slice, comprehension_mod2.
  f_equal. apply list_filter_iff. intros [i x]; cbn.
  rewrite Nat.sub_0_r. split; [tauto | intros; split; [lia | done]].
Qed.

Lemma py_slice_1_2 xs : py_slice 1 2 xs = odds xs.
Proof.
  rewrite <- comprehension_mod2_1. unfold py_slice, comprehension_mod2.
  f_equal. apply list_filter_iff. intros [i x]; cbn.
  destruct i as [|i]; [split; [lia | done]|].
  replace (S i - 1) with i by lia.
  assert (S i mod 2 = 1 ↔ i mod 2 = 0) as Hi.
  { replace (S i) with (i + 1) by lia.
    pose proof (Nat.mod_upper_bound i 2).
    rewrite (Nat.Div0.add_mod i 1 2).
    destruct (i mod 2) as [|[|?]]; cbn; lia. }
  rewrite Hi. split; [tauto | intros; split; [lia | done]].
Qed.

Lemma evens_odds_lookup xs : ∀ i,
  evens xs !! i = xs !! (2 * i) ∧ odds xs !! i = xs !! (2 * i + 1).
Proof.
  induction xs as [|x xs IH]; intros i; [done|]. split.
  - destruct i as [|i]; [done|]. cbn [evens]. rewrite lookup_cons.
    replace (2 * S i) with (S (2 * i + 1)) by lia.
    rewrite lookup_cons. apply IH.
  - cbn [odds]. replace (2 * i + 1) with (S (2 * i)) by lia.
    rewrite lookup_cons. apply IH.
Qed.

Lemma evens_odds_length xs n :
  length xs = 2 * n → length (evens xs) = n ∧ length (odds xs) = n.
Proof.
  revert xs. induction n as [|n IH]; intros xs Hlen.
  - by destruct xs.
  - destruct xs as [|x [|y xs]]; cbn in Hlen; try lia.
    destruct (IH xs) as [He Ho]; [lia|]. cbn. by rewrite He, Ho.
Qed.

Lemma interleave_evens_odds xs n :
  length xs = 2 * n → interleave (evens xs) (odds xs) = xs.
Proof.
  revert xs. induction n as [|n IH]; intros xs Hlen.
  - by destruct xs.
  - destruct xs as [|x [|y xs]]; cbn in Hlen; try lia.
    unfold interleave in *. cbn. f_equal. f_equal. apply IH. lia.
Qed.

End sequences_facts.

(** ** The model splitter *)

Module SplitFacts.
Import Split.

Lemma getattr_ok h o k v : attr h o k = Some v → getattr o k h = (inr v, h).
Proof. intros H. unfold getattr. by rewrite H. Qed.

Lemma getattr_err h o k :
  attr h o k = None → getattr o k h = (inl (AttributeError k), h).
Proof. intros H. unfold getattr. by rewrite H. Qed.

Lemma setattr_ok h l attrs k v :
  h !! l = Some (OInstance attrs) →
  setattr (VRef l) k v h = (inr (), <[l := OInstance (<[k := v]> attrs)]> h).
Proof. intros H. unfold setattr. by rewrite H. Qed.

Lemma alloc_ok o (h : heap) :
  ∃ l, h !! l = None ∧ alloc o h = (inr (VRef l), <[l := o]> h).
Proof.
  exists (fresh (dom h)). split; [|done].
  apply not_elem_of_dom, is_fresh.
Qed.

Lemma iterate_ok h v xs : iter_items h v = Some xs → iterate v h = (inr xs, h).
Proof. intros H. unfold iterate. by rewrite H. Qed.

Lemma iterate_err h v : iter_items h v = None → iterate v h = (inl TypeError, h).
Proof. intros H. unfold iterate. by rewrite H. Qed.

Lemma getslice_list (h : heap) l xs start step :
  h !! l = Some (OList xs) →
  ∃ l', h !! l' = None ∧
    getslice (VRef l) start step h
    = (inr (VRef l'), <[l' := OList (py_slice start step xs)]> h).
Proof.
  intros H. unfold getslice. rewrite H. apply alloc_ok.
Qed.

Lemma frame_refl lt h : frame lt h h.
Proof. by intros l o _ H. Qed.

Lemma frame_insert lt h h' l o :
  frame lt h h' → (l = lt ∨ h !! l = None) → frame lt h (<[l := o]> h').
Proof.
  intros Hf Hl l' o' Hne H'. rewrite lookup_insert_ne; [by apply Hf|].
  intros ->. destruct Hl as [->|Hl]; [done | congruence].
Qed.

Ltac heap_lookup :=
  unfold attr, iter_items, list_items;
  repeat first [ rewrite lookup_insert_eq
               | rewrite lookup_insert_ne by done ];
  repeat match goal with H : _ !! _ = _ |- _ => rewrite H end.

Ltac step_setattr :=
  match goal with
  | |- context [mbind ?f (setattr (VRef ?l) ?k ?v) ?hh] =>
      let H := fresh in
      eassert (hh !! l = Some (OInstance _)) as H by (by heap_lookup);
      rewrite (bind_ok _ f hh _ _ (setattr_ok hh l _ k v H)); clear H
  end.

Ltac step_getattr v :=
  match goal with
  | |- context [mbind ?f (getattr ?o ?k) ?hh] =>
      let H := fresh in
      assert (attr hh o k = Some v) as H by (by heap_lookup);
      rewrite (bind_ok _ f hh _ _ (getattr_ok hh o k v H)); clear H
  end.

Section half.
Context {B : Type}.

Lemma fill_run r lt m lr T0 Am rs (rest : M heap B) (h : heap) :
  h !! lt = Some (OInstance T0) →
  h !! m = Some (OInstance Am) →
  m ≠ lt →
  Am !! "rum_structure" = Some (VRef lr) →
  h !! lr = Some (OList rs) →
  (∃ e h', fill r (VRef lt) (VRef m) rest h = (inl e, h') ∧ frame lt h h' ∧
     ((∃ k, e = AttributeError k ∧ Am !! k = None ∧ k ∈ fields) ∨
      (e = TypeError ∧ ∃ vb, Am !! "boosters" = Some vb ∧ iter_items h vb = None)))
  ∨
  (∃ vb bs lb lr' T h',
     Am !! "boosters" = Some vb ∧ iter_items h vb = Some bs ∧
     h !! lb = None ∧ h !! lr' = None ∧
     filled T0 Am lb lr' T ∧
     frame lt h h' ∧
     h' !! lt = Some (OInstance T) ∧
     h' !! lb = Some (OList (comprehension_mod2 r bs)) ∧
     h' !! lr' = Some (OList (py_slice r 2 rs)) ∧
     fill r (VRef lt) (VRef m) rest h = rest h').
Proof.
  intros Hlt Hm Hmlt Hrs Hlr.
  assert (lr ≠ lt) as Hlrlt by (intros ->; congruence).
  unfold fill.
  (* boosters *)
  destruct (Am !! "boosters") as [vb|] eqn:Hvb; cycle 1.
  { left. eexists _, h. split; [|split; [apply frame_refl|left]].
    - apply bind_err, getattr_err. unfold attr. by rewrite Hm.
    - eexists. split_and!; [done..|]. unfold fields, copied. set_solver. }
  rewrite (bind_ok _ _ _ _ _ (getattr_ok h (VRef m) "boosters" vb
    ltac:(unfold attr; by rewrite Hm))).
  destruct (iter_items h vb) as [bs|] eqn:Hbs; cycle 1.
  { left. eexists _, h. split; [|split; [apply frame_refl|right; eauto]].
    by apply bind_err, iterate_err. }
  rewrite (bind_ok _ _ _ _ _ (iterate_ok _ _ _ Hbs)).
  destruct (alloc_ok (OList (comprehension_mod2 r bs)) h) as (lb & Hlb & Ha).
  rewrite (bind_ok _ _ _ _ _ Ha). clear Ha.
  assert (lb ≠ lt ∧ lb ≠ m ∧ lb ≠ lr) as (? & ? & ?)
    by (repeat split; intros ->; congruence).
  step_setattr.
  (* rum_structure *)
  step_getattr (VRef lr).
  match goal with |- context [mbind _ (getslice (VRef lr) r 2) ?hh] =>
    destruct (getslice_list hh lr rs r 2 ltac:(by heap_lookup))
      as (lr' & Hlr' & Hs) end.
  rewrite (bind_ok _ _ _ _ _ Hs). clear Hs.
  assert (lr' ≠ lt) by (intros ->; by rewrite lookup_insert_eq in Hlr').
  rewrite lookup_insert_ne in Hlr' by done.
  assert (lr' ≠ lb) by (intros ->; by rewrite lookup_insert_eq in Hlr').
  rewrite lookup_insert_ne in Hlr' by done.
  assert (lr' ≠ m) by (intros ->; congruence).
  step_setattr.
  rewrite (insert_insert_ne _ lr' lt) by done. rewrite insert_insert_eq.
  (* the four fields that are copied *)
  destruct (Am !! "num_classes") as [vn|] eqn:Hvn; cycle 1.
  { left. eexists _, _. split; [|split; [|left]].
    - apply bind_err, getattr_err. by heap_lookup.
    - repeat apply frame_insert; auto using frame_refl.
    - eexists. split_and!; [done..|]. unfold fields, copied. set_solver. }
  step_getattr (vn).
  step_setattr.
  rewrite insert_insert_eq.
  destruct (Am !! "device") as [vd|] eqn:Hvd; cycle 1.
  { left. eexists _, _. split; [|split; [|left]].
    - apply bind_err, getattr_err. by heap_lookup.
    - repeat apply frame_insert; auto using frame_refl.
    - eexists. split_and!; [done..|]. unfold fields, copied. set_solver. }
  step_getattr (vd).
  step_setattr.
  rewrite insert_insert_eq.
  destruct (Am !! "nests") as [vns|] eqn:Hvns; cycle 1.
  { left. eexists _, _. split; [|split; [|left]].
    - apply bind_err, getattr_err. by heap_lookup.
    - repeat apply frame_insert; auto using frame_refl.
    - eexists. split_and!; [done..|]. unfold fields, copied. set_solver. }
  step_getattr (vns).
  step_setattr.
  rewrite insert_insert_eq.
  destruct (Am !! "alphas") as [val|] eqn:Hval; cycle 1.
  { left. eexists _, _. split; [|split; [|left]].
    - apply bind_err, getattr_err. by heap_lookup.
    - repeat apply frame_insert; auto using frame_refl.
    - eexists. split_and!; [done..|]. unfold fields, copied. set_solver. }
  step_getattr (val).
  step_setattr.
  rewrite insert_insert_eq.
  right. exists vb, bs, lb, lr'. eexists _, _.
  split_and!; [done|done|done|done| | | | | |].
  6: reflexivity.
  - exists vn, vd, vns, val. split_and!; done.
  - repeat apply frame_insert; auto using frame_refl.
  - by heap_lookup.
  - by heap_lookup.
  - by heap_lookup.
Qed.
End half.

Section master.
Variable RUMBoost : M heap value.

Hypothesis RUMBoost_spec : constructor_spec RUMBoost.

Lemma frame_subseteq (h h1 h2 : heap) l :
  h ⊆ h1 → frame l h1 h2 → h !! l = None → h ⊆ h2.
Proof.
  intros Hsub Hf Hl. apply map_subseteq_spec. intros i o Hi.
  apply Hf; [intros ->; congruence|]. by eapply lookup_weaken.
Qed.

Lemma iter_items_weaken (h h' : heap) v xs :
  h ⊆ h' → iter_items h v = Some xs → iter_items h' v = Some xs.
Proof.
  intros Hsub. destruct v as [| | | |l]; try done. cbn.
  destruct (h !! l) as [o|] eqn:Hl; [|done].
  by rewrite (lookup_weaken _ _ _ _ Hl Hsub).
Qed.

Lemma filled_result r (h h2 h' : heap) Am T0 T l lb lr' m lr rs bs vb :
  h ⊆ h2 →
  h !! m = Some (OInstance Am) →
  Am !! "rum_structure" = Some (VRef lr) → h !! lr = Some (OList rs) →
  Am !! "boosters" = Some vb → iter_items h2 vb = Some bs →
  h !! l = None → h2 !! lb = None → h2 !! lr' = None →
  filled T0 Am lb lr' T →
  h' !! l = Some (OInstance T) →
  h' !! lb = Some (OList (comprehension_mod2 r bs)) →
  h' !! lr' = Some (OList (py_slice r 2 rs)) →
  result_of h h' r Am T0 l.
Proof.
  intros Hsub Hm Hrs Hlr Hvb Hbs Hl Hlb Hlr' (vn & vd & vns & val & Hvn & Hvd & Hvns & Hval & ->) HT HLb HLr.
  eexists _, lb, lr'. split_and!; [done|exact HT|..].
  - by simplify_map_eq.
  - destruct (h !! lb) eqn:E; [|done]. by rewrite (lookup_weaken _ _ _ _ E Hsub) in Hlb.
  - by simplify_map_eq.
  - destruct (h !! lr') eqn:E; [|done]. by rewrite (lookup_weaken _ _ _ _ E Hsub) in Hlr'.
  - intros k Hk. unfold copied in Hk. set_unfold in Hk.
    destruct Hk as [->|[->|[->|[->|[]]]]]; by simplify_map_eq.
  - intros k Hk. unfold fields, copied in Hk. set_unfold in Hk.
    rewrite !lookup_insert_ne by (intros <-; tauto). done.
  - intros rs'. rewrite Hrs. cbn. rewrite Hlr. by intros [= <-].
  - intros bs'. rewrite Hvb. cbn. intros Hbs'.
    apply (iter_items_weaken _ _ _ _ Hsub) in Hbs'. congruence.
Qed.

Lemma split_fe_model_fill model :
  split_fe_model RUMBoost model =
  (rum_structure ← getattr model "rum_structure";
   is_a_list ← isinstance_list rum_structure;
   if negb is_a_list then raise (ValueError rum_structure_msg) else
   attributes_model ← RUMBoost;
   socio_economic_model ← RUMBoost;
   fill 0 attributes_model model
     (fill 1 socio_economic_model model
        (mret (attributes_model, socio_economic_model)))).
Proof. reflexivity. Qed.

Lemma split_fe_model_outcome model (h : heap) :
  split_outcome RUMBoost h model (split_fe_model RUMBoost model h).1
                        (split_fe_model RUMBoost model h).2.
Proof.
  rewrite split_fe_model_fill.
  destruct (attr h model "rum_structure") as [v|] eqn:Hv; cycle 1.
  { rewrite (bind_err _ _ _ _ _ (getattr_err _ _ _ Hv)).
    split; [done|]. split; [done|]. unfold fields. set_solver. }
  rewrite (bind_ok _ _ _ _ _ (getattr_ok _ _ _ _ Hv)).
  rewrite (bind_ok _ _ h (is_list h v) h) by done.
  destruct (is_list h v) eqn:Hlist; cycle 1.
  { cbn. split; [done|]. split; [done|]. eauto. }
  cbn [negb].
  destruct model as [| | | |m]; try done.
  cbn in Hv. destruct (h !! m) as [[Am| | |]|] eqn:Hm; try done.
  destruct v as [| | | |lr]; try done.
  cbn in Hlist. destruct (h !! lr) as [[|rs| |]|] eqn:Hlr; try done.
  destruct (RUMBoost_spec h) as (la & A0 & h1 & Hnew1 & Hla & HA0 & Hsub1).
  destruct (RUMBoost_spec h1) as (ls & S0 & h2 & Hnew2 & Hls & HS0 & Hsub2).
  rewrite (bind_ok _ _ _ _ _ Hnew1), (bind_ok _ _ _ _ _ Hnew2).
  assert (h ⊆ h2) as Hsub by (by etrans).
  assert (la ≠ ls) by (intros ->; congruence).
  assert (h !! ls = None) as Hls0.
  { destruct (h !! ls) eqn:E; [|done].
    by rewrite (lookup_weaken _ _ _ _ E Hsub1) in Hls. }
  destruct (fill_run 0 la m lr A0 Am rs
              (fill 1 (VRef ls) (VRef m) (mret (VRef la, VRef ls))) h2)
    as [(e & h' & -> & Hf & He) |
        (vb & bs & lba & lra & A & h3 & Hvb & Hbs & Hlba & Hlra & HA & Hf3
           & H3la & H3lba & H3lra & ->)].
  { by eapply lookup_weaken. }
  { by eapply lookup_weaken. }
  { intros ->; congruence. }
  { done. }
  { by eapply lookup_weaken. }
  { cbn. split; [by eapply frame_subseteq|].
    destruct He as [(k & -> & Hk & Hin) | (-> & vb & Hvb & Hnone)].
    - unfold attr. by rewrite Hm.
    - exists vb. unfold attr. rewrite Hm. split; [done|].
      destruct (iter_items h vb) eqn:E; [|done].
      by rewrite (iter_items_weaken _ _ _ _ Hsub E) in Hnone. }
  assert (h ⊆ h3) as Hsub3 by (by eapply frame_subseteq).
  destruct (fill_run 1 ls m lr S0 Am rs (mret (VRef la, VRef ls)) h3)
    as [(e & h' & -> & Hf & He) |
        (vb' & bs' & lbs & lrs & S & h4 & Hvb' & Hbs' & Hlbs & Hlrs & HS & Hf4
           & H4ls & H4lbs & H4lrs & ->)].
  { apply Hf3; [done|]. by eapply lookup_weaken. }
  { by eapply lookup_weaken. }
  { intros ->; congruence. }
  { done. }
  { by eapply lookup_weaken. }
  { cbn. split; [by eapply frame_subseteq|].
    destruct He as [(k & -> & Hk & Hin) | (-> & vb0 & Hvb0 & Hnone)].
    - unfold attr. by rewrite Hm.
    - exists vb0. unfold attr. rewrite Hm. split; [done|].
      destruct (iter_items h vb0) eqn:E; [|done].
      by rewrite (iter_items_weaken _ _ _ _ Hsub3 E) in Hnone. }
  cbn. split; [by eapply frame_subseteq|].
  assert (vb' = vb) as -> by congruence.
  exists m, Am, la, ls, A0, S0, h1, h2. split_and!; try done.
  - rewrite Hv. cbn. by rewrite Hlr.
  - eapply (filled_result 0 h h2 h4 Am A0 A la lba lra); try done.
    + apply Hf4; [congruence|done].
    + apply Hf4; [intros ->; congruence|done].
    + apply Hf4; [intros ->; congruence|done].
  - eapply (filled_result 1 h h3 h4 Am S0 S ls lbs lrs); done.
Qed.

(** C4. For a model whose [boosters] and [rum_structure] are lists of
    length [2 * n] (and which has the four other attributes), the call
    returns two models with [n] boosters and [n] descriptors each: the
    attributes model has the items at the even positions, the socio-economic
    model those at the odd positions, in the original order, and interleaving
    the two gives the original lists back. *)
Theorem split_fe_model_even_odd m attrs lr rs lb bs n (h : heap) :
  h !! m = Some (OInstance attrs) →
  attrs !! "rum_structure" = Some (VRef lr) → h !! lr = Some (OList rs) →
  attrs !! "boosters" = Some (VRef lb) → h !! lb = Some (OList bs) →
  (∀ k, k ∈ copied → is_Some (attrs !! k)) →
  length rs = 2 * n → length bs = 2 * n →
  ∃ a s h' ba bs' ra rs',
    split_fe_model RUMBoost (VRef m) h = (inr (a, s), h') ∧
    (attr h' a "boosters" ≫= list_items h') = Some ba ∧
    (attr h' s "boosters" ≫= list_items h') = Some bs' ∧
    (attr h' a "rum_structure" ≫= list_items h') = Some ra ∧
    (attr h' s "rum_structure" ≫= list_items h') = Some rs' ∧
    length ba = n ∧ length bs' = n ∧ length ra = n ∧ length rs' = n ∧
    (∀ i, ba !! i = bs !! (2 * i) ∧ bs' !! i = bs !! (2 * i + 1)) ∧
    (∀ i, ra !! i = rs !! (2 * i) ∧ rs' !! i = rs !! (2 * i + 1)) ∧
    interleave ba bs' = bs ∧ interleave ra rs' = rs.
Proof.
  intros Hm Hrs Hlr Hbs Hlb Hcopied Hnr Hnb.
  pose proof (split_fe_model_outcome (VRef m) h) as [Hsub Hout].
  destruct (split_fe_model RUMBoost (VRef m) h) as [[e|[a s]] h'] eqn:Hrun;
    cbn [fst snd] in *.
  { exfalso. unfold attr in Hout. rewrite Hm in Hout.
    destruct e as [msg|k| | | |]; try done.
    - destruct Hout as (_ & v & Hv & Hl). rewrite Hrs in Hv.
      injection Hv as <-. cbn in Hl. by rewrite Hlr in Hl.
    - destruct Hout as [Hk Hin]. unfold fields in Hin. set_unfold in Hin.
      destruct Hin as [->|[->|Hin]]; [congruence..|].
      destruct (Hcopied k) as [? ?]; [set_solver|congruence].
    - destruct Hout as (vb & Hvb & Hnone). rewrite Hbs in Hvb.
      injection Hvb as <-. cbn in Hnone. by rewrite Hlb in Hnone. }
  destruct Hout as (m' & Am & la & ls & A0 & S0 & h1 & h2 & [= <-] & Hm' & _
                    & -> & -> & Hne & _ & _ & _ & _ & HA & HS).
  rewrite Hm in Hm'. injection Hm' as <-.
  destruct HA as (A & lba & lra & _ & HhA & HAb & _ & HAr & _ & _ & _ & HAR & HAB).
  destruct HS as (S & lbs & lrs & _ & HhS & HSb & _ & HSr & _ & _ & _ & HSR & HSB).
  specialize (HAR rs). specialize (HSR rs). specialize (HAB bs). specialize (HSB bs).
  rewrite Hrs in HAR, HSR. rewrite Hbs in HAB, HSB. cbn in HAR, HSR, HAB, HSB.
  rewrite Hlr in HAR, HSR. rewrite Hlb in HAB, HSB.
  specialize (HAR eq_refl). specialize (HSR eq_refl).
  specialize (HAB eq_refl). specialize (HSB eq_refl).
  rewrite py_slice_0_2 in HAR. rewrite py_slice_1_2 in HSR.
  rewrite comprehension_mod2_0 in HAB. rewrite comprehension_mod2_1 in HSB.
  destruct (evens_odds_length rs n Hnr) as [? ?].
  destruct (evens_odds_length bs n Hnb) as [? ?].
  exists (VRef la), (VRef ls), h', (evens bs), (odds bs), (evens rs), (odds rs).
  unfold attr. rewrite HhA, HhS, HAb, HSb, HAr, HSr. cbn.
  rewrite HAR, HSR, HAB, HSB.
  split_and!; try done.
  - apply evens_odds_lookup.
  - apply evens_odds_lookup.
  - by eapply interleave_evens_odds.
  - by eapply interleave_evens_odds.
Qed.

(** C5, as amended. For a model that has a [rum_structure] attribute, the
    call raises the configuration error ([ValueError]) exactly when the
    attribute is not a list, that is when [isinstance(model.rum_structure,
    list)] is false: a mapping, a scalar, [None], and a tuple too. It is the
    only [ValueError] of the function, it is raised before anything is
    allocated, and for a list it is not raised. *)
Theorem split_fe_model_value_error model v (h : heap) :
  attr h model "rum_structure" = Some v →
  ((∃ msg h', split_fe_model RUMBoost model h = (inl (ValueError msg), h'))
     ↔ is_list h v = false)
  ∧ (is_list h v = false →
     split_fe_model RUMBoost model h = (inl (ValueError rum_structure_msg), h)).
Proof.
  intros Hv.
  assert (is_list h v = false →
    split_fe_model RUMBoost model h = (inl (ValueError rum_structure_msg), h))
    as Hraise.
  { intros Hl. rewrite split_fe_model_fill.
    rewrite (bind_ok _ _ _ _ _ (getattr_ok _ _ _ _ Hv)).
    rewrite (bind_ok _ _ h (is_list h v) h) by done. by rewrite Hl. }
  split; [split|]; [|by eauto|done].
  intros (msg & h' & Hrun).
  pose proof (split_fe_model_outcome model h) as [_ Hout].
  rewrite Hrun in Hout. cbn in Hout.
  destruct Hout as (_ & v' & Hv' & Hl). congruence.
Qed.

(** C6. Both models that a call returns hold, under [num_classes],
    [device], [nests] and [alphas], the very values of the source model: the
    same references, to objects that the call leaves as they were (no copy is
    made). Every attribute other than the six that the function sets is as
    the constructor left it: nothing else of the source is carried over. *)
Theorem split_fe_model_copies_fields model a s (h h' : heap) :
  split_fe_model RUMBoost model h = (inr (a, s), h') →
  (∀ k, k ∈ copied →
     ∃ v, attr h model k = Some v ∧ attr h' a k = Some v ∧ attr h' s k = Some v)
  ∧ h ⊆ h'
  ∧ ∃ h1 h2,
      RUMBoost h = (inr a, h1) ∧ RUMBoost h1 = (inr s, h2) ∧
      ∀ k, k ∉ fields → attr h' a k = attr h1 a k ∧ attr h' s k = attr h2 s k.
Proof.
  intros Hrun.
  pose proof (split_fe_model_outcome model h) as [Hsub Hout].
  rewrite Hrun in Hsub, Hout. cbn [fst snd] in *.
  destruct Hout as (m & Am & la & ls & A0 & S0 & h1 & h2 & -> & Hm & _
                    & -> & -> & Hne & Hn1 & H1 & Hn2 & H2 & HA & HS).
  destruct HA as (A & lba & lra & _ & HhA & _ & _ & _ & _ & HAc & HAo & _ & _).
  destruct HS as (S & lbs & lrs & _ & HhS & _ & _ & _ & _ & HSc & HSo & _ & _).
  split_and!; [|done|].
  - intros k Hk. destruct (HAc k Hk) as [HAk [v Hv]].
    destruct (HSc k Hk) as [HSk _]. exists v.
    unfold attr. rewrite Hm, HhA, HhS. by rewrite HAk, HSk.
  - exists h1, h2. split_and!; [done..|]. intros k Hk.
    unfold attr. rewrite HhA, HhS, H1, H2. auto.
Qed.

(** C7. Whatever the outcome of a call, every object of the initial store
    is unchanged in the final store, and so is every attribute of the source
    model: the call only adds objects. *)
Theorem split_fe_model_source_untouched model (h : heap) :
  let h' := (split_fe_model RUMBoost model h).2 in
  h ⊆ h' ∧ ∀ k v, attr h model k = Some v → attr h' model k = Some v.
Proof.
  pose proof (split_fe_model_outcome model h) as [Hsub _].
  split; [done|]. intros k v. destruct model as [| | | |m]; try done. cbn.
  destruct (h !! m) as [o|] eqn:Hm; [|done].
  by rewrite (lookup_weaken _ _ _ _ Hm Hsub).
Qed.
End master.

Lemma toy_RUMBoost_spec : constructor_spec toy_RUMBoost.
Proof.
  intros h. destruct (alloc_ok (OInstance toy_defaults) h) as (l & Hl & Ha).
  exists l, toy_defaults, (<[l := OInstance toy_defaults]> h).
  split_and!; [done|done|by rewrite lookup_insert_eq|by apply insert_subseteq].
Qed.

(** The toy store, run: the results are the two instances at the addresses
    13 and 14, with the boosters 4, 6 and 5, 7. *)
Example split_fe_model_toy :
  let '(r, h') := split_fe_model toy_RUMBoost (VRef 1%positive) toy_heap in
  r = inr (VRef 13%positive, VRef 14%positive)
  ∧ (attr h' (VRef 13%positive) "boosters" ≫= list_items h')
    = Some (VRef <$> [4; 6]%positive)
  ∧ (attr h' (VRef 14%positive) "boosters" ≫= list_items h')
    = Some (VRef <$> [5; 7]%positive)
  ∧ attr h' (VRef 13%positive) "alphas" = Some (VRef 12%positive)
  ∧ attr h' (VRef 14%positive) "best_iteration" = None.
Proof. vm_compute. done. Qed.

Lemma toy_copied k : k ∈ copied → is_Some (toy_attrs !! k).
Proof.
  unfold copied. intros Hk. set_unfold in Hk.
  destruct Hk as [->|[->|[->|[->|[]]]]]; vm_compute; eauto.
Defined.

Lemma split_fe_model_even_odd_witness :
  ∃ a s h' ba bs' ra rs',
    split_fe_model toy_RUMBoost (VRef 1%positive) toy_heap = (inr (a, s), h') ∧
    (attr h' a "boosters" ≫= list_items h') = Some ba ∧
    (attr h' s "boosters" ≫= list_items h') = Some bs' ∧
    (attr h' a "rum_structure" ≫= list_items h') = Some ra ∧
    (attr h' s "rum_structure" ≫= list_items h') = Some rs' ∧
    length ba = 2 ∧ length bs' = 2 ∧ length ra = 2 ∧ length rs' = 2 ∧
    (∀ i, ba !! i = toy_boosters !! (2 * i)
          ∧ bs' !! i = toy_boosters !! (2 * i + 1)) ∧
    (∀ i, ra !! i = toy_structure !! (2 * i)
          ∧ rs' !! i = toy_structure !! (2 * i + 1)) ∧
    interleave ba bs' = toy_boosters ∧ interleave ra rs' = toy_structure.
Proof.
  apply (split_fe_model_even_odd toy_RUMBoost toy_RUMBoost_spec
           1%positive toy_attrs 3%positive toy_structure
           2%positive toy_boosters 2 toy_heap);
    first [ exact toy_copied | vm_compute; reflexivity ].
Defined.

Lemma split_fe_model_rejects_tuple :
  attr toy_heap_tuple (VRef 1%positive) "rum_structure" = Some (VRef 3%positive)
  ∧ toy_heap_tuple !! 3%positive = Some (OTuple toy_structure)
  ∧ iter_items toy_heap_tuple (VRef 3%positive) = Some toy_structure
  ∧ split_fe_model toy_RUMBoost (VRef 1%positive) toy_heap_tuple
    = (inl (ValueError rum_structure_msg), toy_heap_tuple).
Proof. vm_compute. done. Qed.

Lemma split_fe_model_value_error_witness :
  ((∃ msg h', split_fe_model toy_RUMBoost (VRef 1%positive) toy_heap_tuple
              = (inl (ValueError msg), h'))
     ↔ is_list toy_heap_tuple (VRef 3%positive) = false)
  ∧ (is_list toy_heap_tuple (VRef 3%positive) = false →
     split_fe_model toy_RUMBoost (VRef 1%positive) toy_heap_tuple
     = (inl (ValueError rum_structure_msg), toy_heap_tuple)).
Proof.
  apply (split_fe_model_value_error toy_RUMBoost toy_RUMBoost_spec).
  vm_compute; reflexivity.
Defined.

Lemma split_fe_model_copies_fields_witness :
  let h' := (split_fe_model toy_RUMBoost (VRef 1%positive) toy_heap).2 in
  let a := VRef 13%positive in
  let s := VRef 14%positive in
  (∀ k, k ∈ copied →
     ∃ v, attr toy_heap (VRef 1%positive) k = Some v
          ∧ attr h' a k = Some v ∧ attr h' s k = Some v)
  ∧ toy_heap ⊆ h'
  ∧ ∃ h1 h2,
      toy_RUMBoost toy_heap = (inr a, h1) ∧ toy_RUMBoost h1 = (inr s, h2) ∧
      ∀ k, k ∉ fields → attr h' a k = attr h1 a k ∧ attr h' s k = attr h2 s k.
Proof.
  apply (split_fe_model_copies_fields toy_RUMBoost toy_RUMBoost_spec).
  vm_compute; reflexivity.
Defined.

Lemma split_fe_model_source_untouched_witness :
  let h' := (split_fe_model toy_RUMBoost (VRef 1%positive) toy_heap).2 in
  toy_heap ⊆ h'
  ∧ ∀ k v, attr toy_heap (VRef 1%positive) k = Some v →
           attr h' (VRef 1%positive) k = Some v.
Proof.
  exact (split_fe_model_source_untouched toy_RUMBoost toy_RUMBoost_spec
           (VRef 1%positive) toy_heap).
Defined.

End SplitFacts.

(** ** The bootstrap runner *)

Module BootstrapFacts.
Import Bootstrap.

(** *** numpy's set routines *)

Lemma mask_changes_spec aux : ∀ prev,
  Sorted Z.le (prev :: aux) →
  StronglySorted Z.lt (prev :: mask_changes prev aux)
  ∧ ∀ x, x ∈ prev :: mask_changes prev aux ↔ x ∈ prev :: aux.
Proof.
  induction aux as [|y aux IH]; intros prev Hs; cbn.
  { split; [repeat constructor | done]. }
  apply Sorted_inv in Hs as [Hs Hhd]. apply HdRel_inv in Hhd.
  destruct (IH y Hs) as [Hss Hin].
  destruct (decide (y = prev)) as [->|Hne].
  - split; [done|]. intros x. rewrite Hin, !elem_of_cons. tauto.
  - split.
    + apply StronglySorted_inv in Hss as [Htl Hall].
      constructor; [by constructor|].
      constructor; [lia|]. eapply Forall_impl; [exact Hall|].
      intros z Hz. cbn in Hz. lia.
    + intros x. rewrite !(elem_of_cons _ x prev). by rewrite Hin.
Qed.

Lemma np_unique_spec ar :
  StronglySorted Z.lt (np_unique ar) ∧ ∀ x, x ∈ np_unique ar ↔ x ∈ ar.
Proof.
  unfold np_unique.
  pose proof (Sorted_merge_sort Z.le ar) as Hs.
  pose proof (merge_sort_Permutation Z.le ar) as Hp.
  destruct (merge_sort Z.le ar) as [|x aux].
  - split; [constructor|]. intros x. by rewrite <- Hp.
  - destruct (mask_changes_spec aux x Hs) as [Hss Hin].
    split; [done|]. intros y. by rewrite Hin, Hp.
Qed.

Lemma StronglySorted_filter_lt (P : Z → Prop) `{∀ x, Decision (P x)} l :
  StronglySorted Z.lt l → StronglySorted Z.lt (filter P l).
Proof.
  induction 1 as [|x l Hl IH Hall]; [constructor|].
  rewrite filter_cons. destruct (decide (P x)); [|done].
  constructor; [done|]. apply Forall_forall. intros y Hy.
  apply list_elem_of_filter in Hy as [_ Hy].
  by eapply Forall_forall in Hall.
Qed.

Lemma StronglySorted_lt_NoDup l : StronglySorted Z.lt l → NoDup l.
Proof.
  induction 1 as [|x l Hl IH Hall]; constructor; [|done].
  intros Hx. eapply Forall_forall in Hall; [|exact Hx]. lia.
Qed.

(** [np.setdiff1d]: the values of the first array that the second one does
    not hold, each once, in increasing order. *)
Lemma np_setdiff1d_spec ar1 ar2 :
  (∀ x, x ∈ np_setdiff1d ar1 ar2 ↔ x ∈ ar1 ∧ x ∉ ar2)
  ∧ NoDup (np_setdiff1d ar1 ar2)
  ∧ StronglySorted Z.lt (np_setdiff1d ar1 ar2).
Proof.
  unfold np_setdiff1d.
  destruct (np_unique_spec ar1) as [Hs1 Hin1].
  destruct (np_unique_spec ar2) as [Hs2 Hin2].
  assert (StronglySorted Z.lt (filter (λ x, x ∉ np_unique ar2) (np_unique ar1)))
    as Hs by by apply StronglySorted_filter_lt.
  split_and!; [|by apply StronglySorted_lt_NoDup|done].
  intros x. rewrite list_elem_of_filter, Hin1, Hin2. tauto.
Qed.

Lemma take_positions_ok {S} (a : list Z) idx (s : S) :
  Forall (λ i, i < length a) idx →
  ∃ xs, take_positions a idx s = (inr xs, s)
        ∧ length xs = length idx ∧ Forall (λ x, x ∈ a) xs.
Proof.
  induction 1 as [|i idx Hi _ (xs & Hxs & Hlen & Hall)]; cbn.
  { by exists []. }
  destruct (lookup_lt_is_Some_2 a i Hi) as [x Hx]. rewrite Hx.
  exists (x :: xs). rewrite (bind_ok _ _ _ _ _ Hxs). cbn.
  split_and!; [done|by rewrite Hlen|].
  constructor; [by eapply list_elem_of_lookup_2|done].
Qed.

(** *** The loop *)

Lemma for_range_add {S A} (body : A → M S A) n m : ∀ acc s,
  for_range (n + m) body acc s = (for_range n body acc ≫= for_range m body) s.
Proof.
  induction n as [|n IH]; intros acc s; [reflexivity|]. cbn [for_range Nat.add].
  unfold mbind, M_bind in IH |- *.
  destruct (body acc s) as [[e|acc'] s']; [done|]. apply IH.
Qed.

Lemma for_range_invariant {S A} (I : S → Prop) (body : A → M S A) :
  (∀ acc s, I s → I (body acc s).2) →
  ∀ n acc s, I s → I (for_range n body acc s).2.
Proof.
  intros Hbody. induction n as [|n IH]; intros acc s Hs; [done|].
  cbn [for_range]. unfold mbind, M_bind. specialize (Hbody acc s Hs).
  destruct (body acc s) as [[e|acc'] s']; [done|]. by apply IH.
Qed.

Lemma for_range_count {S A} (c : S → nat) (body : A → M S A) :
  (∀ acc s acc' s', body acc s = (inr acc', s') → c s' = 1 + c s) →
  ∀ n acc s acc' s', for_range n body acc s = (inr acc', s') → c s' = n + c s.
Proof.
  intros Hbody. induction n as [|n IH]; intros acc s acc' s' Hrun.
  { by injection Hrun as _ ->. }
  cbn [for_range] in Hrun.
  apply bind_inv_ok in Hrun as (acc1 & s1 & H1 & Hrun).
  rewrite (IH _ _ _ _ Hrun), (Hbody _ _ _ _ H1). lia.
Qed.

Lemma for_range_extends {S A} (body : list A → M S (list A)) :
  (∀ acc s acc' s', body acc s = (inr acc', s') → ∃ x, acc' = acc ++ [x]) →
  ∀ n acc s acc' s', for_range n body acc s = (inr acc', s') →
    ∃ new, acc' = acc ++ new ∧ length new = n.
Proof.
  intros Hbody. induction n as [|n IH]; intros acc s acc' s' Hrun.
  { injection Hrun as <- _. exists []. by rewrite app_nil_r. }
  cbn [for_range] in Hrun.
  apply bind_inv_ok in Hrun as (acc1 & s1 & H1 & Hrun).
  destruct (Hbody _ _ _ _ H1) as [x ->].
  destruct (IH _ _ _ _ Hrun) as (new & -> & Hlen).
  exists (x :: new). rewrite <- app_assoc. split; [done|]. cbn. by rewrite Hlen.
Qed.

Section bootstrap_facts.
Context {G Feat Spec Model : Type}.
Variable seed_state : Z → exn + G.
Variable randint : nat → G → nat * G.
Variable rum_train :
  lgb_Dataset Feat → Spec → list (lgb_Dataset Feat) → M G Model.
Implicit Types (dataset : list (row Feat)) (w : world G) (g : G).

Lemma randints_ok high size : ∀ g,
  ∃ idx g', randints randint high size g = (inr idx, g')
    ∧ length idx = size
    ∧ (randint_spec randint → 0 < high → Forall (λ i, i < high) idx).
Proof.
  induction size as [|size IH]; intros g; cbn [randints].
  { exists [], g. by split_and!. }
  unfold mbind at 1, M_bind.
  pose proof (λ H : randint_spec randint, H high g) as Hr.
  destruct (randint high g) as [i g1].
  destruct (IH g1) as (idx & g' & Hrun & Hlen & Hall).
  exists (i :: idx), g'. rewrite (bind_ok _ _ _ _ _ Hrun).
  split_and!; [done|by cbn; rewrite Hlen|].
  intros Hspec Hhigh. constructor; [by apply Hr|by apply Hall].
Qed.

Lemma np_random_choice_ok (a : list Z) size g :
  randint_spec randint → size = length a →
  ∃ ids g', np_random_choice randint a size g = (inr ids, g')
    ∧ length ids = size ∧ Forall (λ x, x ∈ a) ids.
Proof.
  intros Hspec ->. unfold np_random_choice.
  destruct (decide (length a = 0 ∧ length a ≠ 0)) as [[? ?]|_]; [done|].
  destruct (randints_ok (length a) (length a) g)
    as (idx & g' & Hrun & Hlen & Hall).
  rewrite (bind_ok _ _ _ _ _ Hrun).
  destruct (take_positions_ok a idx g') as (xs & Hxs & Hlen' & Hin).
  - destruct a as [|x a]; [by destruct idx|]. apply Hall; [done|cbn; lia].
  - exists xs, g'. split_and!; [done|congruence|done].
Qed.

Lemma loc_ok {S} dataset ids (s : S) :
  Forall (λ i, i ∈ index dataset) ids →
  ∃ df, loc dataset ids s = (inr df, s).
Proof.
  intros Hall. unfold loc. rewrite decide_True by done. by eexists.
Qed.

(** The resample never raises; it records one pair of identifier arrays,
    which is as the specification describes it. *)
Lemma resample_run dataset w :
  randint_spec randint →
  ∃ train valid ids ids2 g',
    resample randint dataset (length dataset) w
    = (inr (train, valid), World g' (resamples w ++ [(ids, ids2)]))
    ∧ resample_ok dataset (ids, ids2).
Proof.
  intros Hspec. unfold resample, with_rng, record_resample.
  destruct (np_random_choice_ok (index dataset) (length dataset) (rng w) Hspec)
    as (ids & g' & Hrun & Hlen & Hin).
  { unfold index. by rewrite length_fmap. }
  unfold mbind at 1, M_bind. rewrite Hrun.
  unfold mbind at 1, M_bind. cbn [rng resamples].
  destruct (np_setdiff1d_spec (index dataset) ids) as (Hmem & Hnd & Hs).
  set (w1 := World g' (resamples w ++ [(ids, np_setdiff1d (index dataset) ids)])).
  destruct (loc_ok dataset ids w1 Hin) as [df_train Htrain].
  rewrite (bind_ok _ _ _ _ _ Htrain).
  destruct (loc_ok dataset (np_setdiff1d (index dataset) ids) w1)
    as [df_test Htest].
  { apply Forall_forall. intros x Hx. by apply Hmem in Hx as [? _]. }
  rewrite (bind_ok _ _ _ _ _ Htest).
  eexists _, _, ids, _, g'. split; [reflexivity|].
  by split_and!.
Qed.

(** Whatever happens, a resample adds exactly one record or raises. *)
Lemma bootstrap_body_unfold dataset spec N models w :
  bootstrap_body randint rum_train dataset spec N models w =
  match resample randint dataset N w with
  | (inr (train, valid), w1) =>
      match rum_train train spec [valid] (rng w1) with
      | (inr m, g') => (inr (models ++ [m]), World g' (resamples w1))
      | (inl e, g') => (inl e, World g' (resamples w1))
      end
  | (inl e, w1) => (inl e, w1)
  end.
Proof.
  unfold bootstrap_body. unfold mbind at 1, M_bind.
  destruct (resample randint dataset N w) as [[e|[train valid]] w1]; [done|].
  unfold mbind, M_bind, with_rng.
  by destruct (rum_train train spec [valid] (rng w1)) as [[e|m] g'].
Qed.

Lemma bootstrap_unfold dataset spec num_it seed w :
  bootstrap seed_state randint rum_train dataset spec num_it seed w =
  match seed_state seed with
  | inr g =>
      for_range (Z.to_nat num_it)
        (bootstrap_body randint rum_train dataset spec (length dataset)) []
        (World g (resamples w))
  | inl e => (inl e, w)
  end.
Proof.
  unfold bootstrap, with_rng, np_random_seed. unfold mbind at 1, M_bind.
  destruct (seed_state seed) as [e|g]; [by destruct w|done].
Qed.

Lemma bind_ret_r {S A} (m : M S A) s : (m ≫= mret) s = m s.
Proof. unfold mbind, M_bind. by destruct (m s) as [[e|a] s']. Qed.

Lemma bootstrap_body_appends dataset spec N models w models' w' :
  bootstrap_body randint rum_train dataset spec N models w = (inr models', w') →
  ∃ m, models' = models ++ [m].
Proof.
  rewrite bootstrap_body_unfold.
  destruct (resample randint dataset N w) as [[e|[train valid]] w1]; [done|].
  destruct (rum_train train spec [valid] (rng w1)) as [[e|m] g']; [done|].
  intros [= <- _]. by exists m.
Qed.

(** With a generator and a training routine that keep their contracts, an
    iteration returns: it appends the model that the training call returns. *)
Lemma bootstrap_body_run dataset spec models w :
  randint_spec randint → always_trains rum_train →
  ∃ train valid w_r m g',
    resample randint dataset (length dataset) w = (inr (train, valid), w_r)
    ∧ rum_train train spec [valid] (rng w_r) = (inr m, g')
    ∧ bootstrap_body randint rum_train dataset spec (length dataset) models w
      = (inr (models ++ [m]), World g' (resamples w_r)).
Proof.
  intros Hspec Htrain.
  destruct (resample_run dataset w Hspec)
    as (train & valid & ids & ids2 & g1 & Hres & _).
  destruct (Htrain train spec [valid] g1) as (m & g' & Hm).
  eexists train, valid, _, m, g'. split; [exact Hres|]. split; [exact Hm|].
  rewrite bootstrap_body_unfold, Hres. cbn [rng]. by rewrite Hm.
Qed.

Lemma bootstrap_loop_total dataset spec :
  randint_spec randint → always_trains rum_train →
  ∀ n models w, ∃ models' w',
    for_range n
      (bootstrap_body randint rum_train dataset spec (length dataset)) models w
    = (inr models', w').
Proof.
  intros Hspec Htrain. induction n as [|n IH]; intros models w.
  { by eexists _, _. }
  destruct (bootstrap_body_run dataset spec models w Hspec Htrain)
    as (train & valid & w_r & m & g' & _ & _ & Hbody).
  cbn [for_range]. rewrite (bind_ok _ _ _ _ _ Hbody). apply IH.
Qed.

(** C1. In every iteration of a run, the resampled identifiers [ids] are
    as many as the rows of the data set, and the complement [ids2] holds
    exactly the identifiers of the index that [ids] does not hold, each once,
    in increasing order. A run that returns has made one resample per
    iteration. *)
Theorem bootstrap_resamples dataset spec num_it seed g0 :
  randint_spec randint →
  let run := bootstrap seed_state randint rum_train dataset spec num_it seed
               (World g0 []) in
  (∀ ids ids2, (ids, ids2) ∈ resamples run.2 →
     length ids = length dataset
     ∧ (∀ x, x ∈ ids2 ↔ x ∈ index dataset ∧ x ∉ ids)
     ∧ NoDup ids2
     ∧ StronglySorted Z.lt ids2)
  ∧ (∀ models, run.1 = inr models →
       length (resamples run.2) = Z.to_nat num_it).
Proof.
  intros Hspec run. subst run. rewrite bootstrap_unfold.
  destruct (seed_state seed) as [e|g]; cbn [fst snd resamples].
  { split; [|done]. intros ids ids2 Hin. by apply elem_of_nil in Hin. }
  set (body := bootstrap_body randint rum_train dataset spec (length dataset)).
  split.
  - intros ids ids2 Hin.
    assert (Forall (resample_ok dataset)
              (resamples (for_range (Z.to_nat num_it) body [] (World g [])).2))
      as Hall.
    { apply (for_range_invariant
               (λ w, Forall (resample_ok dataset) (resamples w))); [|done].
      intros models w Hw. unfold body. rewrite bootstrap_body_unfold.
      destruct (resample_run dataset w Hspec)
        as (train & valid & ids' & ids2' & g1 & -> & Hok).
      cbn [rng resamples].
      assert (Forall (resample_ok dataset) (resamples w ++ [(ids', ids2')]))
        by (apply Forall_app; split; [done|by constructor]).
      by destruct (rum_train train spec [valid] g1) as [[e|m] g']. }
    eapply Forall_forall in Hall; [|exact Hin]. exact Hall.
  - intros models Hrun.
    destruct (for_range (Z.to_nat num_it) body [] (World g [])) as [r w'] eqn:E.
    cbn [fst snd] in *. subst r.
    assert (∀ acc w acc1 w1, body acc w = (inr acc1, w1) →
              length (resamples w1) = 1 + length (resamples w)) as Hbody;
      [|rewrite (for_range_count (λ w, length (resamples w)) body Hbody
                   _ _ _ _ _ E); cbn; lia].
    intros acc w acc1 w1. unfold body. rewrite bootstrap_body_unfold.
    destruct (resample_run dataset w Hspec)
      as (train & valid & ids' & ids2' & g1 & -> & _).
    cbn [rng resamples].
    destruct (rum_train train spec [valid] g1) as [[e|m] g']; [done|].
    intros [= _ <-]. cbn. rewrite length_app. cbn. lia.
Qed.

(** C2. When the seed is accepted and every training call returns a model,
    [bootstrap] with [num_it = k] returns a list of exactly [k] models, and
    the model at position [i] is the one that the training call of iteration
    [i] returned, that is the call made on the resample drawn after the
    first [i] iterations. *)
Theorem bootstrap_returns_models dataset spec num_it seed g w0 :
  randint_spec randint → always_trains rum_train →
  seed_state seed = inr g →
  ∃ models w',
    bootstrap seed_state randint rum_train dataset spec num_it seed w0
    = (inr models, w')
    ∧ length models = Z.to_nat num_it
    ∧ ∀ i, i < Z.to_nat num_it →
        ∃ prev w_i train valid w_r m g',
          bootstrap seed_state randint rum_train dataset spec
            (Z.of_nat i) seed w0 = (inr prev, w_i)
          ∧ length prev = i
          ∧ resample randint dataset (length dataset) w_i
            = (inr (train, valid), w_r)
          ∧ rum_train train spec [valid] (rng w_r) = (inr m, g')
          ∧ models !! i = Some m.
Proof.
  intros Hspec Htrain Hseed.
  set (body := bootstrap_body randint rum_train dataset spec (length dataset)).
  assert (∀ n acc w acc' w', for_range n body acc w = (inr acc', w') →
            ∃ new, acc' = acc ++ new ∧ length new = n) as Hext.
  { apply for_range_extends. intros acc w acc' w'.
    apply bootstrap_body_appends. }
  rewrite bootstrap_unfold, Hseed. fold body.
  destruct (bootstrap_loop_total dataset spec Hspec Htrain
              (Z.to_nat num_it) [] (World g (resamples w0)))
    as (models & w' & Hrun).
  fold body in Hrun. exists models, w'. split; [done|].
  destruct (Hext _ _ _ _ _ Hrun) as (new & -> & Hlen). split; [done|].
  intros i Hi. rewrite bootstrap_unfold, Hseed, Nat2Z.id. fold body.
  destruct (bootstrap_loop_total dataset spec Hspec Htrain
              i [] (World g (resamples w0))) as (prev & w_i & Hprev).
  fold body in Hprev.
  destruct (Hext _ _ _ _ _ Hprev) as (prev' & -> & Hleni).
  destruct (bootstrap_body_run dataset spec ([] ++ prev') w_i Hspec Htrain)
    as (train & valid & w_r & m & g' & Hres & Hm & Hbody).
  exists ([] ++ prev'), w_i, train, valid, w_r, m, g'.
  split_and!; [done|done|done|done|].
  replace (Z.to_nat num_it) with (i + S (Z.to_nat num_it - S i)) in Hrun by lia.
  rewrite for_range_add, (bind_ok _ _ _ _ _ Hprev) in Hrun.
  cbn [for_range] in Hrun. fold body in Hbody.
  rewrite (bind_ok _ _ _ _ _ Hbody) in Hrun.
  destruct (Hext _ _ _ _ _ Hrun) as (rest & Heq & _).
  cbn [app] in *. rewrite Heq, <- app_assoc.
  rewrite lookup_app_r by lia. by rewrite Hleni, Nat.sub_diag.
Qed.

(** C3. The outcome of a run and the identifiers of all its resamples do
    not depend on the state that the generator had before the call: the seed
    alone fixes them. The generator is seeded once: a run of [k + 1]
    iterations is the run of [k] iterations followed by one more iteration
    from the state that those left. *)
Theorem bootstrap_deterministic dataset spec num_it seed g0 g0' :
  let run g := bootstrap seed_state randint rum_train dataset spec num_it seed
                 (World g []) in
  (run g0).1 = (run g0').1
  ∧ resamples (run g0).2 = resamples (run g0').2
  ∧ ∀ k,
      bootstrap seed_state randint rum_train dataset spec
        (Z.of_nat (S k)) seed (World g0 [])
      = (bootstrap seed_state randint rum_train dataset spec
           (Z.of_nat k) seed
         ≫= bootstrap_body randint rum_train dataset spec (length dataset))
          (World g0 []).
Proof.
  intros run. subst run. cbn beta. rewrite !bootstrap_unfold.
  split_and!.
  - by destruct (seed_state seed).
  - by destruct (seed_state seed).
  - intros k. unfold mbind at 1, M_bind. rewrite !bootstrap_unfold.
    destruct (seed_state seed) as [e|g]; [done|].
    rewrite !Nat2Z.id. replace (S k) with (k + 1) by lia.
    rewrite for_range_add. unfold mbind at 1, M_bind.
    destruct (for_range k _ [] _) as [[e|models] w]; [done|].
    cbn [for_range]. apply bind_ret_r.
Qed.

(** C8. When the training call raises in iteration [k], after [k]
    iterations that returned the models [prev], the exception is the outcome
    of [bootstrap]: no list is returned, the models [prev] are not part of
    the outcome, and the final state is the one that the failing call left
    (nothing is run again). *)
Theorem bootstrap_training_error dataset spec num_it seed w0
    k prev w_k train valid w_r e g' :
  k < Z.to_nat num_it →
  bootstrap seed_state randint rum_train dataset spec (Z.of_nat k) seed w0
  = (inr prev, w_k) →
  resample randint dataset (length dataset) w_k = (inr (train, valid), w_r) →
  rum_train train spec [valid] (rng w_r) = (inl e, g') →
  bootstrap seed_state randint rum_train dataset spec num_it seed w0
  = (inl e, World g' (resamples w_r)).
Proof.
  intros Hk Hprev Hres Hfail. rewrite bootstrap_unfold in Hprev |- *.
  destruct (seed_state seed) as [e0|g]; [done|]. rewrite Nat2Z.id in Hprev.
  replace (Z.to_nat num_it) with (k + S (Z.to_nat num_it - S k)) by lia.
  rewrite for_range_add, (bind_ok _ _ _ _ _ Hprev). cbn [for_range].
  apply bind_err. rewrite bootstrap_body_unfold, Hres. by rewrite Hfail.
Qed.

End bootstrap_facts.

(** *** The toy instance *)

Lemma toy_randint_spec : randint_spec toy_randint.
Proof.
  intros high g Hhigh. unfold toy_randint. cbn [fst].
  apply Nat.mod_upper_bound. lia.
Qed.

Lemma toy_train_total_always : always_trains toy_train_total.
Proof. intros train_set spec valid_sets g. by eexists _, _. Qed.

(** Three iterations from the seed 0 on the three rows 10, 20, 30. *)
Example bootstrap_toy_run :
  let run := bootstrap toy_seed_state toy_randint toy_train toy_dataset ()
               3 0 (World 7%Z []) in
  run.1 = inr [(3, 1); (3, 1); (3, 1)]
  ∧ resamples run.2
    = [([10; 10; 20], [30]); ([20; 10; 20], [30]); ([20; 20; 30], [10])]%Z.
Proof. vm_compute. done. Qed.

Lemma bootstrap_resamples_witness :
  let run := bootstrap toy_seed_state toy_randint toy_train toy_dataset ()
               3 42 (World 0%Z []) in
  (∀ ids ids2, (ids, ids2) ∈ resamples run.2 →
     length ids = length toy_dataset
     ∧ (∀ x, x ∈ ids2 ↔ x ∈ index toy_dataset ∧ x ∉ ids)
     ∧ NoDup ids2
     ∧ StronglySorted Z.lt ids2)
  ∧ (∀ models, run.1 = inr models → length (resamples run.2) = Z.to_nat 3).
Proof.
  exact (bootstrap_resamples toy_seed_state toy_randint toy_train
           toy_dataset () 3 42 0%Z toy_randint_spec).
Defined.

Lemma bootstrap_returns_models_witness :
  ∃ models w',
    bootstrap toy_seed_state toy_randint toy_train_total toy_dataset ()
      3 42 (World 0%Z []) = (inr models, w')
    ∧ length models = Z.to_nat 3
    ∧ ∀ i, i < Z.to_nat 3 →
        ∃ prev w_i train valid w_r m g',
          bootstrap toy_seed_state toy_randint toy_train_total toy_dataset ()
            (Z.of_nat i) 42 (World 0%Z []) = (inr prev, w_i)
          ∧ length prev = i
          ∧ resample toy_randint toy_dataset (length toy_dataset) w_i
            = (inr (train, valid), w_r)
          ∧ toy_train_total train () [valid] (rng w_r) = (inr m, g')
          ∧ models !! i = Some m.
Proof.
  apply (bootstrap_returns_models toy_seed_state toy_randint toy_train_total
           toy_dataset () 3 42 42%Z (World 0%Z [])
           toy_randint_spec toy_train_total_always).
  vm_compute; reflexivity.
Defined.

Lemma bootstrap_training_error_witness :
  ∃ (w_r : world Z) g',
    bootstrap toy_seed_state toy_randint toy_train toy_dataset () 3 42
      (World 0%Z [])
    = (inl (ExternalError "no validation data"), World g' (resamples w_r))
    ∧ resamples w_r = [([20; 30; 30], [10]); ([10; 30; 20], [])]%Z.
Proof.
  eexists _, _. split.
  - eapply (bootstrap_training_error toy_seed_state toy_randint toy_train
              toy_dataset () 3 42 (World 0%Z []) 1).
    + vm_compute. lia.
    + vm_compute. reflexivity.
    + vm_compute. reflexivity.
    + vm_compute. reflexivity.
  - reflexivity.
Defined.

End BootstrapFacts.

(** ** The specification extractor *)

Module ExtractFacts.
Import Extract.

(** *** The placeholder parameters *)

Global Instance asc_name_inj : Inj (=) (=) asc_name.
Proof.
  intros i j Hij. unfold asc_name in Hij.
  by apply (inj (String.app "asc_")), (inj pretty) in Hij.
Qed.

Lemma asc_fold_lookup (l : list Z) : ∀ (d : gmap string Beta) k b,
  foldl (λ d i, <[asc_name i := asc_beta i]> d) d l !! k = Some b ↔
  (∃ i, i ∈ l ∧ k = asc_name i ∧ b = asc_beta i)
  ∨ ((∀ i, i ∈ l → k ≠ asc_name i) ∧ d !! k = Some b).
Proof.
  induction l as [|j l IH]; intros d k b; cbn [foldl].
  { split; [intros H; right; split; [intros i Hi; by apply elem_of_nil in Hi|done]|].
    intros [(i & Hi & _)|[_ H]]; [by apply elem_of_nil in Hi|done]. }
  rewrite IH. split.
  - intros [(i & Hi & -> & ->)|[Hno Hd]].
    + left. exists i. split_and!; [by right|done..].
    + destruct (decide (k = asc_name j)) as [->|Hne].
      * rewrite lookup_insert_eq in Hd. injection Hd as <-.
        left. exists j. split_and!; [by left|done..].
      * rewrite lookup_insert_ne in Hd by done. right. split; [|done].
        intros i [->|Hi]%elem_of_cons; [done|by apply Hno].
  - intros [(i & Hi & -> & ->)|[Hno Hd]].
    + destruct (decide (i ∈ l)) as [Hil|Hil].
      * left. by exists i.
      * apply elem_of_cons in Hi as [->|Hi]; [|done]. right. split.
        -- intros i Hi Heq. apply (inj asc_name) in Heq. by subst.
        -- by rewrite lookup_insert_eq.
    + right. split; [intros i Hi; apply Hno; by right|].
      rewrite lookup_insert_ne; [done|]. intros Heq. by eapply Hno; [left|].
Qed.

Lemma asc_fold_dom (l : list Z) : ∀ d : gmap string Beta,
  dom (foldl (λ d i, <[asc_name i := asc_beta i]> d) d l)
  = dom d ∪ list_to_set (asc_name <$> l).
Proof.
  induction l as [|j l IH]; intros d; cbn [foldl].
  { by rewrite fmap_nil, list_to_set_nil, (right_id_L ∅ (∪)). }
  rewrite IH, dom_insert_L, fmap_cons, list_to_set_cons.
  by rewrite (comm_L (∪) {[asc_name j]} (dom d)), (assoc_L (∪)).
Qed.

Lemma elem_of_range n i : i ∈ range n ↔ (0 ≤ i < n)%Z.
Proof.
  unfold range. rewrite list_elem_of_fmap. split.
  - intros (k & -> & Hk). apply elem_of_seq in Hk. lia.
  - intros Hi. exists (Z.to_nat i). split; [lia|]. apply elem_of_seq. lia.
Qed.

Lemma NoDup_range n : NoDup (range n).
Proof. unfold range. apply NoDup_fmap_2; [apply _|apply NoDup_seq]. Qed.

Lemma length_range n : length (range n) = Z.to_nat n.
Proof. unfold range. by rewrite length_fmap, length_seq. Qed.

(** The dictionary of line 121: one entry for each [i] of [range(n)], under
    the key [asc_i], and nothing else. *)
Lemma asc_comprehension_spec n :
  size (asc_comprehension n) = Z.to_nat n
  ∧ (∀ i, (0 ≤ i < n)%Z →
       asc_comprehension n !! asc_name i = Some (asc_beta i))
  ∧ (∀ k b, asc_comprehension n !! k = Some b →
       ∃ i, (0 ≤ i < n)%Z ∧ k = asc_name i ∧ b = asc_beta i).
Proof.
  unfold asc_comprehension. fold asc_beta. split_and!.
  - rewrite <- size_dom, asc_fold_dom, dom_empty_L, (left_id_L ∅ (∪)).
    rewrite size_list_to_set, length_fmap, length_range; [done|].
    apply NoDup_fmap_2; [apply _|apply NoDup_range].
  - intros i Hi. apply asc_fold_lookup. left. exists i.
    by rewrite elem_of_range.
  - intros k b Hk. apply asc_fold_lookup in Hk as [(i & Hi & -> & ->)|[_ ?]];
      [|done].
    exists i. by rewrite <- elem_of_range.
Qed.

(** *** The function *)

Lemma getitem_valid {S A} (xs : list A) i (s : S) :
  valid_index xs i → ∃ x, getitem xs i s = (inr x, s).
Proof.
  unfold valid_index, getitem. intros Hi.
  set (j := if decide (i < 0)%Z then _ else _).
  assert (0 ≤ j < Z.of_nat (length xs))%Z as Hj
    by (subst j; case_decide; lia).
  rewrite decide_True by done.
  destruct (lookup_lt_is_Some_2 xs (Z.to_nat j)) as [x Hx]; [lia|].
  rewrite Hx. by exists x.
Qed.

Lemma getitem_state {S A} (xs : list A) i (s : S) : (getitem xs i s).2 = s.
Proof.
  unfold getitem. case_decide; [|done]. by destruct (xs !! _).
Qed.

Lemma for_each_state {S A} (xs : list A) (body : A → M S ()) :
  (∀ x s, (body x s).2 = s) → ∀ s, (for_each xs body s).2 = s.
Proof.
  intros Hbody. induction xs as [|x xs IH]; intros s; [done|].
  cbn [for_each]. unfold mbind, M_bind. specialize (Hbody x s).
  destruct (body x s) as [[e|[]] s']; cbn in Hbody; subst s'; [done|].
  apply IH.
Qed.

Lemma for_each_ok {S A} (xs : list A) (body : A → M S ()) s :
  Forall (λ x, body x s = (inr (), s)) xs → for_each xs body s = (inr (), s).
Proof.
  induction 1 as [|x xs Hx _ IH]; [done|].
  cbn [for_each]. by rewrite (bind_ok _ _ _ _ _ Hx).
Qed.

Section extract_facts.
Context {Key TreeInfo : Type}.
Variable weights_to_plot_v2 :
  model → exn + list (Key * list (string * TreeInfo)).
Variable int : Key → exn + Z.
Implicit Types (m : model) (s : locals Key TreeInfo).

(** The two loops leave the local variables as they are, whether they run to
    the end or raise. *)
Lemma inspect_weights_state m w s : (inspect_weights int m w s).2 = s.
Proof.
  unfold inspect_weights. apply for_each_state. intros [i weight] s1.
  apply for_each_state. intros [name tree_info] s2.
  unfold mbind, M_bind, call. destruct (int i) as [e|k]; [done|].
  pose proof (getitem_state (boost_from_parameter_space m) k s2) as Hs.
  destruct (getitem _ k s2) as [[e|[]] s3]; cbn in Hs; by subst.
Qed.

Lemma inspect_weights_ok m w s :
  weights_ok int m w → inspect_weights int m w s = (inr (), s).
Proof.
  intros Hok. unfold inspect_weights. apply for_each_ok.
  eapply Forall_impl; [exact Hok|]. intros [i weight]; cbn [fst snd].
  intros [->|(k & Hk & Hvalid)]; [done|].
  apply for_each_ok, Forall_forall. intros [name tree_info] _.
  unfold call. rewrite (bind_ok _ _ s k s) by by rewrite Hk.
  destruct (getitem_valid (boost_from_parameter_space m) k s Hvalid)
    as [b Hb].
  rewrite (bind_ok _ _ _ _ _ Hb). by destruct b.
Qed.

Lemma assist_model_spec_unfold m s :
  assist_model_spec weights_to_plot_v2 int m s =
  let d := asc_comprehension (num_classes m - 1) in
  match weights_to_plot_v2 m with
  | inl e => (inl e, Locals (Some d) (weights s))
  | inr w =>
      match inspect_weights int m w (Locals (Some d) (Some w)) with
      | (inl e, s') => (inl e, s')
      | (inr (), s') => (inr RNone, s')
      end
  end.
Proof.
  unfold assist_model_spec, set_ascs, set_weights, call.
  unfold mbind at 1 2 3, M_bind. cbn [ascs weights].
  destruct (weights_to_plot_v2 m) as [e|w]; [done|].
  unfold mbind, M_bind. cbn [ascs weights].
  by destruct (inspect_weights int m w _) as [[e|[]] s'].
Qed.

(** C9. For a model with [num_classes >= 1], the dictionary built at line
    121 has exactly [num_classes - 1] entries: under each key [asc_i], for
    [i] from [0] to [num_classes - 2], the placeholder named [asc_i] with the
    value 0 and no bounds, and no other key. *)
Theorem assist_model_spec_placeholders m s :
  (1 ≤ num_classes m)%Z →
  ∃ d, ascs (assist_model_spec weights_to_plot_v2 int m s).2 = Some d
    ∧ Z.of_nat (size d) = (num_classes m - 1)%Z
    ∧ (∀ i, (0 ≤ i < num_classes m - 1)%Z →
         d !! ("asc_" +:+ pretty i)
         = Some (mkBeta ("asc_" +:+ pretty i) 0 None None 0))
    ∧ (∀ k b, d !! k = Some b →
         ∃ i, (0 ≤ i < num_classes m - 1)%Z ∧ k = "asc_" +:+ pretty i
              ∧ b = mkBeta k 0 None None 0).
Proof.
  intros Hn. exists (asc_comprehension (num_classes m - 1)).
  destruct (asc_comprehension_spec (num_classes m - 1)) as (Hsize & Hin & Hout).
  split_and!.
  - rewrite assist_model_spec_unfold. cbn zeta.
    destruct (weights_to_plot_v2 m) as [e|w]; [done|].
    pose proof (inspect_weights_state m w
      (Locals (Some (asc_comprehension (num_classes m - 1))) (Some w))) as Hs.
    destruct (inspect_weights int m w _) as [[e|[]] s']; cbn in Hs; by subst.
  - rewrite Hsize. lia.
  - exact Hin.
  - intros k b Hk. destruct (Hout k b Hk) as (i & Hi & -> & ->). by exists i.
Qed.

(** C10. When the weight helper returns a mapping whose keys refer to
    boosters of the model, the call returns [None], and its local variables
    are then the dictionary of line 121 and that mapping. A call never
    returns anything else than [None], and the two loops leave the local
    variables as they are in both branches of the conditional. *)
Theorem assist_model_spec_returns_None m s w :
  weights_to_plot_v2 m = inr w →
  weights_ok int m w →
  assist_model_spec weights_to_plot_v2 int m s
  = (inr RNone,
     Locals (Some (asc_comprehension (num_classes m - 1))) (Some w))
  ∧ (∀ s0 r s', assist_model_spec weights_to_plot_v2 int m s0 = (inr r, s') →
       r = RNone)
  ∧ (∀ w0 s0, (inspect_weights int m w0 s0).2 = s0).
Proof.
  intros Hw Hok. split_and!.
  - rewrite assist_model_spec_unfold, Hw. cbn zeta.
    by rewrite inspect_weights_ok.
  - intros s0 r s'. rewrite assist_model_spec_unfold. cbn zeta.
    destruct (weights_to_plot_v2 m) as [e|w0]; [done|].
    destruct (inspect_weights int m w0 _) as [[e|[]] s1]; [done|].
    by intros [= <- _].
  - intros w0 s0. apply inspect_weights_state.
Qed.

End extract_facts.

Lemma toy_weights_ok :
  weights_ok toy_int toy_model
    [("0", [("travel_time", ()); ("cost", ())]); ("2", [("cost", ())])].
Proof.
  unfold weights_ok.
  apply Forall_cons_2; [|apply Forall_cons_2; [|apply Forall_nil_2]].
  - right. exists 0%Z. split; [reflexivity|]. unfold valid_index. cbn. lia.
  - right. exists 2%Z. split; [reflexivity|]. unfold valid_index. cbn. lia.
Defined.

Lemma assist_model_spec_placeholders_witness :
  ∃ d, ascs (assist_model_spec toy_weights toy_int toy_model
               (Locals None None)).2 = Some d
    ∧ Z.of_nat (size d) = (num_classes toy_model - 1)%Z
    ∧ (∀ i, (0 ≤ i < num_classes toy_model - 1)%Z →
         d !! ("asc_" +:+ pretty i)
         = Some (mkBeta ("asc_" +:+ pretty i) 0 None None 0))
    ∧ (∀ k b, d !! k = Some b →
         ∃ i, (0 ≤ i < num_classes toy_model - 1)%Z ∧ k = "asc_" +:+ pretty i
              ∧ b = mkBeta k 0 None None 0).
Proof.
  apply (assist_model_spec_placeholders toy_weights toy_int toy_model).
  vm_compute. discriminate.
Defined.

Lemma assist_model_spec_returns_None_witness :
  assist_model_spec toy_weights toy_int toy_model (Locals None None)
  = (inr RNone,
     Locals (Some (asc_comprehension (num_classes toy_model - 1)))
            (Some [("0", [("travel_time", ()); ("cost", ())]);
                   ("2", [("cost", ())])]))
  ∧ (∀ s0 r s', assist_model_spec toy_weights toy_int toy_model s0
                = (inr r, s') → r = RNone)
  ∧ (∀ w0 (s0 : locals string ()),
       (inspect_weights toy_int toy_model w0 s0).2 = s0).
Proof.
  apply (assist_model_spec_returns_None toy_weights toy_int toy_model).
  - reflexivity.
  - exact toy_weights_ok.
Defined.

End ExtractFacts.

(** * Further properties *)

(** ** The model splitter *)

Module SplitMore.
Import Split SplitFacts.

Section sequences_more.
Context {A : Type}.
Implicit Types xs : list A.


Lemma evens_odds_subset xs : ∀ x, (x ∈ evens xs → x ∈ xs) ∧ (x ∈ odds xs → x ∈ xs).
Proof.
  induction xs as [|y xs IH]; intros x; [split; intros Hx; exact Hx|].
  cbn [evens odds]. split.
  - rewrite !elem_of_cons. intros [->|Hx]; [by left|].
    right. by apply (proj2 (IH x)).
  - rewrite elem_of_cons. intros Hx. right. by apply (proj1 (IH x)).
Qed.
End sequences_more.

Section split_more.
Variable RUMBoost : M heap value.
Hypothesis RUMBoost_spec : constructor_spec RUMBoost.


(** X2. The two models that a call returns are two different new objects,
    and the [boosters] and [rum_structure] of each are list objects that the
    initial store did not hold (they are not the source's lists). Their items
    are items of the source's lists: the boosters and the descriptors
    themselves are shared with the source, not copied. *)
Theorem split_fe_model_fresh_lists model a s vb bs (h h' : heap) :
  split_fe_model RUMBoost model h = (inr (a, s), h') →
  attr h model "boosters" = Some vb → iter_items h vb = Some bs →
  ∃ la ls rs,
    a = VRef la ∧ s = VRef ls ∧ la ≠ ls ∧ h !! la = None ∧ h !! ls = None
    ∧ (attr h model "rum_structure" ≫= list_items h) = Some rs
    ∧ ∀ res, res = a ∨ res = s →
        ∃ lb lr ibs irs,
          attr h' res "boosters" = Some (VRef lb) ∧ h !! lb = None
          ∧ h' !! lb = Some (OList ibs) ∧ (∀ x, x ∈ ibs → x ∈ bs)
          ∧ attr h' res "rum_structure" = Some (VRef lr) ∧ h !! lr = None
          ∧ h' !! lr = Some (OList irs) ∧ (∀ x, x ∈ irs → x ∈ rs).
Proof.
  intros Hrun Hvb Hit.
  pose proof (split_fe_model_outcome RUMBoost RUMBoost_spec model h)
    as [Hsub Hout].
  rewrite Hrun in Hsub, Hout. cbn [fst snd] in *.
  destruct Hout as (m & Am & la & ls & A0 & S0 & h1 & h2 & -> & Hm & Hl
                    & -> & -> & Hne & _ & _ & _ & _ & HA & HS).
  unfold attr in Hvb. rewrite Hm in Hvb.
  destruct (Am !! "rum_structure") as [v|] eqn:Hv; [|done].
  cbn in Hl. injection Hl as Hl.
  destruct v as [| | | |lr]; try done. cbn in Hl.
  destruct (h !! lr) as [[|rs| |]|] eqn:Hlr; try done.
  destruct HA as (A & lba & lra & HlaN & HhA & HAb & HlbaN & HAr & HlraN & _ & _ & HAR & HAB).
  destruct HS as (S & lbs & lrs & HlsN & HhS & HSb & HlbsN & HSr & HlrsN & _ & _ & HSR & HSB).
  specialize (HAR rs). specialize (HSR rs). specialize (HAB bs). specialize (HSB bs).
  rewrite Hv in HAR, HSR. rewrite Hvb in HAB, HSB. cbn in HAR, HSR, HAB, HSB.
  rewrite Hlr in HAR, HSR. rewrite Hit in HAB, HSB.
  specialize (HAR eq_refl). specialize (HSR eq_refl).
  specialize (HAB eq_refl). specialize (HSB eq_refl).
  rewrite py_slice_0_2 in HAR. rewrite py_slice_1_2 in HSR.
  rewrite comprehension_mod2_0 in HAB. rewrite comprehension_mod2_1 in HSB.
  exists la, ls, rs. split_and!; try done.
  { unfold attr. rewrite Hm, Hv. cbn. by rewrite Hlr. }
  intros res [->| ->].
  - exists lba, lra, (evens bs), (evens rs). unfold attr. rewrite HhA.
    split_and!; try done; intros x; apply evens_odds_subset.
  - exists lbs, lrs, (odds bs), (odds rs). unfold attr. rewrite HhS.
    split_and!; try done; intros x; apply evens_odds_subset.
Qed.

(** X3. The only exceptions of a call are: the [ValueError] for a
    [rum_structure] that is not a list; an [AttributeError] for one of the
    six attributes, which the model then lacks; a [TypeError], when the
    [boosters] attribute cannot be iterated over. *)
Theorem split_fe_model_exceptions model e (h h' : heap) :
  split_fe_model RUMBoost model h = (inl e, h') →
  (e = ValueError rum_structure_msg
   ∧ ∃ v, attr h model "rum_structure" = Some v ∧ is_list h v = false)
  ∨ (∃ k, e = AttributeError k ∧ k ∈ fields ∧ attr h model k = None)
  ∨ (e = TypeError
     ∧ ∃ vb, attr h model "boosters" = Some vb ∧ iter_items h vb = None).
Proof.
  intros Hrun.
  pose proof (split_fe_model_outcome RUMBoost RUMBoost_spec model h)
    as [_ Hout].
  rewrite Hrun in Hout. cbn [fst snd] in Hout.
  destruct e as [msg|k| | | |]; try done.
  - left. destruct Hout as [-> Hv]. by split.
  - right. left. exists k. by destruct Hout.
  - right. right. by split.
Qed.
End split_more.



Lemma split_fe_model_fresh_lists_witness :
  let h' := (split_fe_model toy_RUMBoost (VRef 1%positive) toy_heap).2 in
  let a := VRef 13%positive in
  let s := VRef 14%positive in
  ∃ la ls rs,
    a = VRef la ∧ s = VRef ls ∧ la ≠ ls
    ∧ toy_heap !! la = None ∧ toy_heap !! ls = None
    ∧ (attr toy_heap (VRef 1%positive) "rum_structure" ≫= list_items toy_heap)
      = Some rs
    ∧ ∀ res, res = a ∨ res = s →
        ∃ lb lr ibs irs,
          attr h' res "boosters" = Some (VRef lb) ∧ toy_heap !! lb = None
          ∧ h' !! lb = Some (OList ibs) ∧ (∀ x, x ∈ ibs → x ∈ toy_boosters)
          ∧ attr h' res "rum_structure" = Some (VRef lr)
          ∧ toy_heap !! lr = None
          ∧ h' !! lr = Some (OList irs) ∧ (∀ x, x ∈ irs → x ∈ rs).
Proof.
  apply (split_fe_model_fresh_lists toy_RUMBoost toy_RUMBoost_spec
           (VRef 1%positive) _ _ (VRef 2%positive) toy_boosters toy_heap);
    vm_compute; reflexivity.
Defined.

Lemma split_fe_model_exceptions_witness :
  let h := toy_heap_no_boosters in
  let model := VRef 1%positive in
  (TypeError = ValueError rum_structure_msg
   ∧ ∃ v, attr h model "rum_structure" = Some v ∧ is_list h v = false)
  ∨ (∃ k, TypeError = AttributeError k ∧ k ∈ fields ∧ attr h model k = None)
  ∨ (TypeError = TypeError
     ∧ ∃ vb, attr h model "boosters" = Some vb ∧ iter_items h vb = None).
Proof.
  apply (split_fe_model_exceptions toy_RUMBoost toy_RUMBoost_spec
           (VRef 1%positive) TypeError toy_heap_no_boosters
           (split_fe_model toy_RUMBoost (VRef 1%positive)
              toy_heap_no_boosters).2).
  vm_compute; reflexivity.
Defined.

End SplitMore.

(** ** The bootstrap runner *)

Module BootstrapMore.
Import Bootstrap BootstrapFacts.

Lemma take_positions_inv {S} (a : list Z) idx : ∀ (s s' : S) xs,
  take_positions a idx s = (inr xs, s') →
  s' = s ∧ length xs = length idx ∧ Forall (λ x, x ∈ a) xs.
Proof.
  induction idx as [|i idx IH]; intros s s' xs; cbn [take_positions].
  { intros [= <- <-]. by split_and!. }
  destruct (a !! i) as [x|] eqn:Hx; [|done]. intros Hrun.
  apply bind_inv_ok in Hrun as (xs' & s1 & Hrun & [= <- <-]).
  destruct (IH _ _ _ Hrun) as (-> & Hlen & Hall).
  split_and!; [done|by cbn; rewrite Hlen|].
  constructor; [by eapply list_elem_of_lookup_2|done].
Qed.

Section rows.
Context {Feat : Type}.
Implicit Types (df : list (row Feat)) (ids : list Z).

Lemma loc_inv {S} df ids (s s' : S) rows :
  loc df ids s = (inr rows, s') →
  s' = s ∧ rows = loc_rows df ids ∧ Forall (λ i, i ∈ index df) ids.
Proof.
  unfold loc. case_decide; [|done]. by intros [= <- <-].
Qed.

Lemma loc_rows_ids df ids x :
  Forall (λ i, i ∈ index df) ids →
  x ∈ row_id <$> loc_rows df ids ↔ x ∈ ids.
Proof.
  intros Hall. unfold loc_rows. rewrite list_elem_of_fmap. split.
  - intros (r & -> & Hr). apply list_elem_of_bind in Hr as (i & Hr & Hi).
    apply list_elem_of_filter in Hr as [-> _]. done.
  - intros Hx. eapply Forall_forall in Hall; [|exact Hx].
    unfold index in Hall. apply list_elem_of_fmap in Hall as (r & -> & Hr).
    exists r. split; [done|]. apply list_elem_of_bind. exists (row_id r).
    split; [|done]. by apply list_elem_of_filter.
Qed.

Lemma filter_row_id_absent df i :
  i ∉ index df → filter (λ r, row_id r = i) df = [].
Proof.
  unfold index. induction df as [|r df IH]; [done|].
  rewrite fmap_cons, not_elem_of_cons. intros [Hne Hi].
  rewrite filter_cons_False by done. by apply IH.
Qed.

Lemma filter_row_id_NoDup df i :
  NoDup (index df) → i ∈ index df →
  ∃ r, filter (λ r, row_id r = i) df = [r] ∧ row_id r = i.
Proof.
  unfold index. induction df as [|r df IH].
  { intros _ Hi. by apply elem_of_nil in Hi. }
  rewrite fmap_cons. intros [Hnotin Hnd]%NoDup_cons Hi.
  destruct (decide (row_id r = i)) as [<-|Hne].
  - exists r. split; [|done]. rewrite filter_cons_True by done.
    f_equal. by apply filter_row_id_absent.
  - rewrite filter_cons_False by done. apply IH; [done|].
    apply elem_of_cons in Hi as [?|?]; [congruence|done].
Qed.

Lemma loc_rows_NoDup df ids :
  NoDup (index df) → Forall (λ i, i ∈ index df) ids →
  row_id <$> loc_rows df ids = ids.
Proof.
  intros Hnd. unfold loc_rows. induction 1 as [|i ids Hi _ IH]; [done|].
  rewrite bind_cons, fmap_app, IH.
  destruct (filter_row_id_NoDup df i Hnd Hi) as (r & -> & <-). done.
Qed.

Lemma drop_choice_ids df : (drop_choice df).*1 = row_id <$> df.
Proof. unfold drop_choice. rewrite <- list_fmap_compose. done. Qed.

Lemma choice_ids df : (choice df).*1 = row_id <$> df.
Proof. unfold choice. rewrite <- list_fmap_compose. done. Qed.
End rows.

Section bootstrap_more.
Context {G Feat Spec Model : Type}.
Variable seed_state : Z → exn + G.
Variable randint : nat → G → nat * G.
Variable rum_train :
  lgb_Dataset Feat → Spec → list (lgb_Dataset Feat) → M G Model.
Implicit Types (dataset : list (row Feat)) (w : world G) (g : G).

Lemma np_random_choice_inv (a : list Z) size g ids g' :
  np_random_choice randint a size g = (inr ids, g') →
  length ids = size ∧ Forall (λ x, x ∈ a) ids.
Proof.
  unfold np_random_choice. case_decide; [done|]. intros Hrun.
  apply bind_inv_ok in Hrun as (idx & g1 & Hidx & Htake).
  destruct (randints_ok randint (length a) size g)
    as (idx' & g1' & Hidx' & Hlen & _).
  rewrite Hidx in Hidx'. injection Hidx' as <- <-.
  apply take_positions_inv in Htake as (_ & Hlen' & Hall).
  split; [congruence|done].
Qed.

(** What a resample that returns has built. *)
Lemma resample_inv dataset N w train valid w' :
  resample randint dataset N w = (inr (train, valid), w') →
  ∃ ids g',
    let ids2 := np_setdiff1d (index dataset) ids in
    np_random_choice randint (index dataset) N (rng w) = (inr ids, g')
    ∧ w' = World g' (resamples w ++ [(ids, ids2)])
    ∧ Forall (λ i, i ∈ index dataset) ids
    ∧ train = Dataset (drop_choice (loc_rows dataset ids))
                      (choice (loc_rows dataset ids)) false
    ∧ valid = Dataset (drop_choice (loc_rows dataset ids2))
                      (choice (loc_rows dataset ids2)) false.
Proof.
  unfold resample. intros Hrun.
  apply bind_inv_ok in Hrun as (ids & w1 & Hchoice & Hrun).
  unfold with_rng in Hchoice.
  destruct (np_random_choice randint (index dataset) N (rng w))
    as [[e|ids'] g'] eqn:Hc; [done|]. injection Hchoice as -> <-.
  apply bind_inv_ok in Hrun as ([] & w2 & Hrec & Hrun).
  unfold record_resample in Hrec. cbn [rng resamples] in Hrec.
  injection Hrec as <-.
  apply bind_inv_ok in Hrun as (df_train & w3 & Htrain & Hrun).
  apply loc_inv in Htrain as (-> & -> & Hall).
  apply bind_inv_ok in Hrun as (df_test & w4 & Htest & Hrun).
  apply loc_inv in Htest as (-> & -> & _).
  injection Hrun as <- <- <-. by exists ids, g'.
Qed.

(** X4. In an iteration, the rows of the training set are those of the
    resampled identifiers and the rows of the validation set those of the
    complement: labels and features are aligned, no identifier is in both
    sets, and every identifier of the index is in one of them. When the
    index has no duplicate, the training set has exactly the identifiers
    [ids], in order, hence as many rows as the data set. *)
Theorem resample_partition dataset w train valid w' :
  resample randint dataset (length dataset) w = (inr (train, valid), w') →
  ∃ ids ids2,
    resamples w' = resamples w ++ [(ids, ids2)]
    ∧ (label train).*1 = (data train).*1
    ∧ (label valid).*1 = (data valid).*1
    ∧ (∀ x, x ∈ (data train).*1 ↔ x ∈ ids)
    ∧ (∀ x, x ∈ (data valid).*1 ↔ x ∈ ids2)
    ∧ (∀ x, x ∈ (data train).*1 → x ∉ (data valid).*1)
    ∧ (∀ x, x ∈ index dataset ↔ x ∈ (data train).*1 ∨ x ∈ (data valid).*1)
    ∧ (NoDup (index dataset) →
         (data train).*1 = ids ∧ (data valid).*1 = ids2
         ∧ length (data train) = length dataset).
Proof.
  intros Hrun. apply resample_inv in Hrun as (ids & g' & Hrun). cbn zeta in Hrun.
  destruct Hrun as (Hchoice & -> & Hall & -> & ->).
  apply np_random_choice_inv in Hchoice as [Hlen _].
  destruct (np_setdiff1d_spec (index dataset) ids) as (Hmem & _ & _).
  assert (Forall (λ i, i ∈ index dataset) (np_setdiff1d (index dataset) ids))
    as Hall2.
  { apply Forall_forall. intros x Hx. by apply Hmem in Hx as [? _]. }
  exists ids, (np_setdiff1d (index dataset) ids). cbn [data label resamples].
  rewrite !drop_choice_ids, !choice_ids.
  assert (∀ x, x ∈ row_id <$> loc_rows dataset ids ↔ x ∈ ids) as Htr
    by (intros x; by apply loc_rows_ids).
  assert (∀ x, x ∈ row_id <$> loc_rows dataset (np_setdiff1d (index dataset) ids)
               ↔ x ∈ np_setdiff1d (index dataset) ids) as Hva
    by (intros x; by apply loc_rows_ids).
  split_and!; [done|done|done|exact Htr|exact Hva| | |].
  - intros x Hx Hx'. apply Htr in Hx. apply Hva, Hmem in Hx' as [_ Hx'].
    by apply Hx'.
  - intros x. rewrite Htr, Hva, Hmem. split.
    + intros Hx. destruct (decide (x ∈ ids)); [by left|by right].
    + intros [Hx|[Hx _]]; [|done]. by eapply Forall_forall in Hall.
  - intros Hnd. rewrite !loc_rows_NoDup by done. split_and!; [done|done|].
    unfold drop_choice. rewrite length_fmap, <- (length_fmap row_id).
    by rewrite loc_rows_NoDup.
Qed.

Lemma resample_trace dataset N w :
  resamples w `prefix_of` resamples (resample randint dataset N w).2.
Proof.
  unfold resample, with_rng, record_resample. unfold mbind at 1, M_bind.
  destruct (np_random_choice randint (index dataset) N (rng w))
    as [[e|ids] g']; [done|].
  unfold mbind at 1, M_bind. cbn [rng resamples].
  unfold mbind at 1, M_bind, loc. case_decide; [|by apply prefix_app_r].
  cbn. unfold mbind, M_bind. case_decide; by apply prefix_app_r.
Qed.

Lemma bootstrap_body_trace dataset spec N models w :
  resamples w `prefix_of`
  resamples (bootstrap_body randint rum_train dataset spec N models w).2.
Proof.
  rewrite bootstrap_body_unfold. pose proof (resample_trace dataset N w) as Hp.
  destruct (resample randint dataset N w) as [[e|[train valid]] w1]; [done|].
  by destruct (rum_train train spec [valid] (rng w1)) as [[e|m] g'].
Qed.

(** X5. The first iterations do not depend on [num_it]: when a run of [k']
    iterations returns, the run of [k <= k'] iterations from the same seed
    returns its first [k] models, and its resamples are the first ones of the
    longer run. *)
Theorem bootstrap_prefix dataset spec seed w0 k k' models' w' :
  k ≤ k' →
  bootstrap seed_state randint rum_train dataset spec (Z.of_nat k') seed w0
  = (inr models', w') →
  ∃ w, bootstrap seed_state randint rum_train dataset spec (Z.of_nat k) seed w0
       = (inr (take k models'), w)
       ∧ resamples w `prefix_of` resamples w'.
Proof.
  intros Hk. rewrite !bootstrap_unfold.
  destruct (seed_state seed) as [e|g]; [done|]. rewrite !Nat2Z.id.
  set (body := bootstrap_body randint rum_train dataset spec (length dataset)).
  replace k' with (k + (k' - k)) by lia. rewrite for_range_add.
  intros Hrun. apply bind_inv_ok in Hrun as (prev & w & Hprev & Hrest).
  exists w. assert (∀ n acc w1 acc' w2, for_range n body acc w1 = (inr acc', w2) →
            ∃ new, acc' = acc ++ new ∧ length new = n) as Hext.
  { apply for_range_extends. intros acc w1 acc' w2.
    apply bootstrap_body_appends. }
  destruct (Hext _ _ _ _ _ Hprev) as (new & -> & Hlen).
  destruct (Hext _ _ _ _ _ Hrest) as (new' & -> & _).
  split.
  - rewrite Hprev. do 2 f_equal. cbn [app].
    rewrite take_app_length'; done.
  - pose proof (for_range_invariant
      (λ w2, resamples w `prefix_of` resamples w2) body) as Hinv.
    specialize (Hinv (λ acc w1 Hw1, transitivity Hw1
                        (bootstrap_body_trace dataset spec _ acc w1))).
    specialize (Hinv (k' - k) ([] ++ new) w (reflexivity _)).
    by rewrite Hrest in Hinv.
Qed.

(** X6. With [num_it <= 0] (a negative count included) and an accepted
    seed, the call returns the empty list: nothing is drawn and nothing is
    trained, the generator is left in the state that the seed gives. *)
Theorem bootstrap_nonpositive dataset spec num_it seed g w0 :
  (num_it ≤ 0)%Z → seed_state seed = inr g →
  bootstrap seed_state randint rum_train dataset spec num_it seed w0
  = (inr [], World g (resamples w0)).
Proof.
  intros Hn Hseed. rewrite bootstrap_unfold, Hseed.
  by replace (Z.to_nat num_it) with 0 by lia.
Qed.


End bootstrap_more.

Lemma resample_partition_witness :
  ∃ train valid w',
    resample toy_randint toy_dataset (length toy_dataset) (World 42%Z [])
    = (inr (train, valid), w')
    ∧ ∃ ids ids2,
        resamples w' = [] ++ [(ids, ids2)]
        ∧ (label train).*1 = (data train).*1
        ∧ (label valid).*1 = (data valid).*1
        ∧ (∀ x, x ∈ (data train).*1 ↔ x ∈ ids)
        ∧ (∀ x, x ∈ (data valid).*1 ↔ x ∈ ids2)
        ∧ (∀ x, x ∈ (data train).*1 → x ∉ (data valid).*1)
        ∧ (∀ x, x ∈ index toy_dataset
                ↔ x ∈ (data train).*1 ∨ x ∈ (data valid).*1)
        ∧ (NoDup (index toy_dataset) →
             (data train).*1 = ids ∧ (data valid).*1 = ids2
             ∧ length (data train) = length toy_dataset).
Proof.
  eexists _, _, _. split; [vm_compute; reflexivity|].
  apply (resample_partition toy_randint toy_dataset (World 42%Z [])).
  vm_compute; reflexivity.
Defined.

Lemma bootstrap_prefix_witness :
  ∃ w, bootstrap toy_seed_state toy_randint toy_train toy_dataset ()
         (Z.of_nat 1) 0 (World 7%Z [])
       = (inr (take 1 [(3, 1); (3, 1); (3, 1)]), w)
       ∧ resamples w `prefix_of`
         resamples (bootstrap toy_seed_state toy_randint toy_train
                      toy_dataset () (Z.of_nat 3) 0 (World 7%Z [])).2.
Proof.
  apply (bootstrap_prefix toy_seed_state toy_randint toy_train
           toy_dataset () 0 (World 7%Z []) 1 3).
  - lia.
  - vm_compute; reflexivity.
Defined.

Lemma bootstrap_nonpositive_witness :
  bootstrap toy_seed_state toy_randint toy_train toy_dataset () (-2) 42
    (World 7%Z [])
  = (inr [], World 42%Z []).
Proof.
  apply (bootstrap_nonpositive toy_seed_state toy_randint toy_train
           toy_dataset () (-2) 42 42%Z (World 7%Z [])).
  - lia.
  - vm_compute; reflexivity.
Defined.


End BootstrapMore.

(** ** The specification extractor *)

Module ExtractMore.
Import Extract ExtractFacts.

Lemma getitem_inv {S A} (xs : list A) i (s s' : S) x :
  getitem xs i s = (inr x, s') → valid_index xs i.
Proof.
  unfold getitem, valid_index.
  destruct (decide (i < 0)%Z); case_decide; try done; lia.
Qed.



Section extract_more.
Context {Key TreeInfo : Type}.
Variable weights_to_plot_v2 :
  model → exn + list (Key * list (string * TreeInfo)).
Variable int : Key → exn + Z.
Implicit Types (m : model) (s : locals Key TreeInfo).

Lemma inspect_weights_inv m w s s' :
  inspect_weights int m w s = (inr (), s') → weights_ok int m w.
Proof.
  unfold inspect_weights, weights_ok. revert s.
  induction w as [|[i weight] w IH]; intros s; [by constructor|].
  cbn [for_each]. intros Hrun.
  apply bind_inv_ok in Hrun as ([] & s1 & Hitem & Hrest).
  constructor; [|by eapply IH]. cbn [fst snd].
  destruct weight as [|[name tree_info] weight]; [by left|right].
  cbn [for_each] in Hitem.
  apply bind_inv_ok in Hitem as ([] & s2 & Hfirst & _).
  apply bind_inv_ok in Hfirst as (k & s3 & Hk & Hfirst).
  unfold call in Hk. injection Hk as Hk <-.
  apply bind_inv_ok in Hfirst as (b & s4 & Hb & _).
  exists k. split; [done|]. by eapply getitem_inv.
Qed.


Lemma assist_model_spec_ascs m s :
  ascs (assist_model_spec weights_to_plot_v2 int m s).2
  = Some (asc_comprehension (num_classes m - 1)).
Proof.
  rewrite assist_model_spec_unfold. cbn zeta.
  destruct (weights_to_plot_v2 m) as [e|w]; [done|].
  pose proof (inspect_weights_state int m w
    (Locals (Some (asc_comprehension (num_classes m - 1))) (Some w))) as Hs.
  destruct (inspect_weights int m w _) as [[e|[]] s']; cbn in Hs; by subst.
Qed.

(** X8. When the weight helper returns the mapping [w], the call returns
    if and only if every key of [w] whose inner mapping has an item converts
    to an index of [boost_from_parameter_space] (a negative index counts from
    the end); a key whose inner mapping is empty is never converted. *)
Theorem assist_model_spec_returns_iff m s w :
  weights_to_plot_v2 m = inr w →
  (∃ r s', assist_model_spec weights_to_plot_v2 int m s = (inr r, s'))
  ↔ weights_ok int m w.
Proof.
  intros Hw. rewrite assist_model_spec_unfold, Hw. cbn zeta. split.
  - intros (r & s' & Hrun).
    destruct (inspect_weights int m w _) as [[e|[]] s1] eqn:Hloop; [done|].
    by eapply inspect_weights_inv.
  - intros Hok. rewrite inspect_weights_ok by done. by eexists _, _.
Qed.


(** X10. For [num_classes <= 1] (zero or negative included) the dictionary
    of line 121 is empty, and no exception is raised for it. *)
Theorem assist_model_spec_no_placeholder m s :
  (num_classes m ≤ 1)%Z →
  ascs (assist_model_spec weights_to_plot_v2 int m s).2 = Some ∅.
Proof.
  intros Hn. rewrite assist_model_spec_ascs. f_equal.
  unfold asc_comprehension, range.
  by replace (Z.to_nat (num_classes m - 1)) with 0 by lia.
Qed.

End extract_more.

Lemma assist_model_spec_returns_iff_witness :
  (∃ r s', assist_model_spec toy_weights toy_int toy_model
             (Locals None None) = (inr r, s'))
  ↔ weights_ok toy_int toy_model
      [("0", [("travel_time", ()); ("cost", ())]); ("2", [("cost", ())])].
Proof.
  apply (assist_model_spec_returns_iff toy_weights toy_int toy_model).
  reflexivity.
Defined.


Lemma assist_model_spec_no_placeholder_witness :
  ascs (assist_model_spec toy_weights toy_int toy_model_single
          (Locals None None)).2 = Some ∅.
Proof.
  apply (assist_model_spec_no_placeholder toy_weights toy_int toy_model_single).
  vm_compute. discriminate.
Defined.

End ExtractMore.
